(** * Elio chat client: the conversation engine, the history store,
      the remote session client, the attachment codec and the suggestion
      provider, embedded from the [App] component
      ([src/unnamed/part_001]), the types ([src/unnamed/part_000]) and
      [src/services/geminiService.ts].  Line numbers are those of the file
      the section embeds.

    Conventions of the embedding.
    - A JavaScript string is the list of its UTF-16 code units, so that
      [length], [slice], [split] and [trim] count what the engine counts.
    - [Date.now()] reads a clock oracle [clock : nat -> N]; the world
      records how many readings were taken so far.
    - React state is one record; a handler is a program in a state monad
      over it.  A state updater that throws while React applies it is an
      uncaught error of the run ([Uncaught]), which no [try]/[catch] of a
      handler sees.
    - The remote model is data: the chunks of a stream and how it ends. *)

From Stdlib Require Import String Ascii List Bool Arith NArith Lia.
From Stdlib Require Import DecimalString DecimalN.
Import ListNotations.

Set Implicit Arguments.
Local Open Scope list_scope.

(* ===================================================================== *)
(** ** JavaScript strings *)
(* ===================================================================== *)

Module JsString.

Definition code_unit := N.
Definition jsstring := list code_unit.

(** An ASCII literal of the source as a sequence of code units. *)
Definition js (s : string) : jsstring :=
  map N_of_ascii (list_ascii_of_string s).

Fixpoint streq (a b : jsstring) : bool :=
  match a, b with
  | [], [] => true
  | x :: a', y :: b' => N.eqb x y && streq a' b'
  | _, _ => false
  end.

(** A string is truthy when it is not empty. *)
Definition truthy (s : jsstring) : bool :=
  match s with [] => false | _ :: _ => true end.

(** [a || b] on strings. *)
Definition or_else (a b : jsstring) : jsstring :=
  if truthy a then a else b.

(** WhiteSpace and LineTerminator code units of ECMAScript, the ones
    [String.prototype.trim] removes. *)
Definition isWhiteSpace (c : code_unit) : bool :=
  ((9 <=? c) && (c <=? 13) || (c =? 32) || (c =? 160) || (c =? 5760)
   || (8192 <=? c) && (c <=? 8202) || (c =? 8232) || (c =? 8233)
   || (c =? 8239) || (c =? 8287) || (c =? 12288) || (c =? 65279))%N.

Fixpoint trimStart (s : jsstring) : jsstring :=
  match s with
  | c :: s' => if isWhiteSpace c then trimStart s' else s
  | [] => []
  end.

Definition trimEnd (s : jsstring) : jsstring := rev (trimStart (rev s)).

Definition trim (s : jsstring) : jsstring := trimEnd (trimStart s).

(** [s.slice(0, n)]. *)
Definition slice0 (n : nat) (s : jsstring) : jsstring := firstn n s.

(** [s.split(sep)] for a separator of one code unit. *)
Fixpoint split (sep : code_unit) (s : jsstring) : list jsstring :=
  match s with
  | [] => [[]]
  | c :: s' =>
      if N.eqb c sep then [] :: split sep s'
      else match split sep s' with
           | seg :: segs => (c :: seg) :: segs
           | [] => [[c]]
           end
  end.

(** [n.toString()] for a non-negative integer in the range where
    JavaScript prints plain decimal digits ([Date.now()] is). *)
Definition toString (n : N) : jsstring :=
  js (NilZero.string_of_uint (N.to_uint n)).

Definition comma : code_unit := 44%N.

End JsString.
Import JsString.

(* ===================================================================== *)
(** ** Data model ([src/unnamed/part_000]) *)
(* ===================================================================== *)

Inductive Sender := User | AI.

Record Attachment := mkAttachment {
  mimeType : jsstring;
  data : jsstring;
  fileName : jsstring
}.

Record Message := mkMessage {
  id : jsstring;
  text : jsstring;
  sender : Sender;
  timestamp : N;
  isThinking : option bool;
  msg_attachments : option (list Attachment)
}.

Record ChatHistoryItem := mkItem {
  item_id : jsstring;
  title : jsstring;
  item_messages : list Message;
  item_timestamp : N
}.

Record Suggestion := mkSuggestion {
  icon : jsstring;
  sug_text : jsstring
}.

(** [{ ...m, text: t }]. *)
Definition with_text (m : Message) (t : jsstring) : Message :=
  {| id := id m; text := t; sender := sender m; timestamp := timestamp m;
     isThinking := isThinking m; msg_attachments := msg_attachments m |}.

(* ===================================================================== *)
(** ** The world: React state of [App], the module state of the remote
       session client, the clock and the requests sent so far *)
(* ===================================================================== *)

(** One part of a multipart request. *)
Inductive Part :=
| TextPart (t : jsstring)
| InlineData (mime payload : jsstring).

(** [messageContent : string | Part[]]. *)
Inductive MessageContent :=
| Raw (t : jsstring)
| Parts (ps : list Part).

(** The session handle; every session carries the same system
    instruction, so only the model name and the thinking budget are kept. *)
Record Chat := mkChat {
  model : jsstring;
  thinkingBudget : option N
}.

Record World := mkWorld {
  messages : list Message;
  inputText : jsstring;
  attachments : list Attachment;
  isLoading : bool;
  useThinking : bool;
  suggestions : list Suggestion;
  history : list ChatHistoryItem;
  activeChatId : option jsstring;
  hasStarted : bool;
  chatSession : option Chat;
  sent : list MessageContent;
  ticks : nat
}.

Definition upd_messages (f : list Message -> list Message) (w : World) :=
  mkWorld (f (messages w)) (inputText w) (attachments w) (isLoading w)
    (useThinking w) (suggestions w) (history w) (activeChatId w)
    (hasStarted w) (chatSession w) (sent w) (ticks w).

Definition upd_inputText (v : jsstring) (w : World) :=
  mkWorld (messages w) v (attachments w) (isLoading w)
    (useThinking w) (suggestions w) (history w) (activeChatId w)
    (hasStarted w) (chatSession w) (sent w) (ticks w).

Definition upd_attachments (f : list Attachment -> list Attachment) (w : World) :=
  mkWorld (messages w) (inputText w) (f (attachments w)) (isLoading w)
    (useThinking w) (suggestions w) (history w) (activeChatId w)
    (hasStarted w) (chatSession w) (sent w) (ticks w).

Definition upd_isLoading (v : bool) (w : World) :=
  mkWorld (messages w) (inputText w) (attachments w) v
    (useThinking w) (suggestions w) (history w) (activeChatId w)
    (hasStarted w) (chatSession w) (sent w) (ticks w).

Definition upd_suggestions (v : list Suggestion) (w : World) :=
  mkWorld (messages w) (inputText w) (attachments w) (isLoading w)
    (useThinking w) v (history w) (activeChatId w)
    (hasStarted w) (chatSession w) (sent w) (ticks w).

Definition upd_history (f : list ChatHistoryItem -> list ChatHistoryItem)
    (w : World) :=
  mkWorld (messages w) (inputText w) (attachments w) (isLoading w)
    (useThinking w) (suggestions w) (f (history w)) (activeChatId w)
    (hasStarted w) (chatSession w) (sent w) (ticks w).

Definition upd_activeChatId (v : option jsstring) (w : World) :=
  mkWorld (messages w) (inputText w) (attachments w) (isLoading w)
    (useThinking w) (suggestions w) (history w) v
    (hasStarted w) (chatSession w) (sent w) (ticks w).

Definition upd_hasStarted (v : bool) (w : World) :=
  mkWorld (messages w) (inputText w) (attachments w) (isLoading w)
    (useThinking w) (suggestions w) (history w) (activeChatId w)
    v (chatSession w) (sent w) (ticks w).

Definition upd_chatSession (v : option Chat) (w : World) :=
  mkWorld (messages w) (inputText w) (attachments w) (isLoading w)
    (useThinking w) (suggestions w) (history w) (activeChatId w)
    (hasStarted w) v (sent w) (ticks w).

Definition upd_sent (f : list MessageContent -> list MessageContent)
    (w : World) :=
  mkWorld (messages w) (inputText w) (attachments w) (isLoading w)
    (useThinking w) (suggestions w) (history w) (activeChatId w)
    (hasStarted w) (chatSession w) (f (sent w)) (ticks w).

Definition upd_ticks (f : nat -> nat) (w : World) :=
  mkWorld (messages w) (inputText w) (attachments w) (isLoading w)
    (useThinking w) (suggestions w) (history w) (activeChatId w)
    (hasStarted w) (chatSession w) (sent w) (f (ticks w)).

(* ===================================================================== *)
(** ** The handler monad *)
(* ===================================================================== *)

Inductive Error :=
| TypeError
| ErrorMsg (m : jsstring).

Inductive Outcome (A : Type) :=
| Ok (a : A) (w : World)
| Uncaught (e : Error).
Arguments Uncaught {A} e.

Definition M (A : Type) := World -> Outcome A.

Definition ret {A} (a : A) : M A := fun w => Ok a w.

Definition bind {A B} (c : M A) (k : A -> M B) : M B :=
  fun w => match c w with
           | Ok a w' => k a w'
           | Uncaught e => Uncaught e
           end.

Declare Scope handler_scope.
Delimit Scope handler_scope with handler.
Notation "x <- c ;; k" := (bind c (fun x => k))
  (at level 61, c at next level, right associativity) : handler_scope.
Notation "c ;; k" := (bind c (fun _ => k))
  (at level 61, right associativity) : handler_scope.
Local Open Scope handler_scope.

Definition get : M World := fun w => Ok w w.
Definition modify (f : World -> World) : M unit := fun w => Ok tt (f w).

(** [setX(v)] and [setX(prev => f prev)] of the [useState] setters. *)
Definition setMessages f := modify (upd_messages f).
Definition setInputText v := modify (upd_inputText v).
Definition setAttachments f := modify (upd_attachments f).
Definition setIsLoading v := modify (upd_isLoading v).
Definition setSuggestions v := modify (upd_suggestions v).
Definition setHistory f := modify (upd_history f).
Definition setActiveChatId v := modify (upd_activeChatId v).
Definition setHasStarted v := modify (upd_hasStarted v).

(** A [setMessages] whose updater can throw: the updater runs when React
    applies the update, outside every handler, so the error is uncaught. *)
Definition setMessages_throwing
    (f : list Message -> option (list Message)) : M unit :=
  fun w => match f (messages w) with
           | Some ms => Ok tt (upd_messages (fun _ => ms) w)
           | None => Uncaught TypeError
           end.

(* ===================================================================== *)
(** ** Remote session client ([src/services/geminiService.ts]) *)
(* ===================================================================== *)

(** How the remote stream behaves for one request: the chunks it yields,
    each with an optional text, and whether the iteration then ends or
    fails.  A call that fails before the first chunk has no chunks. *)
Inductive StreamEnd := Resolves | Rejects.

Record RemoteStream := mkRemote {
  chunks : list (option jsstring);
  ending : StreamEnd
}.

Definition initializeChat (thinking : bool) : M unit :=
  modify (upd_chatSession
            (Some {| model := js "gemini-2.5-flash";
                     thinkingBudget := if thinking then Some 4096%N else None |})).

Definition resetChat : M unit := modify (upd_chatSession None).

(** [attachments.forEach(att => parts.push({ inlineData: ... }))]. *)
Definition push_attachments (parts : list Part) (atts : list Attachment) :=
  fold_left (fun ps att => ps ++ [InlineData (mimeType att) (data att)])
            atts parts.

(** Lines 49-71: the request payload. *)
Definition messageContent (txt : jsstring) (atts : list Attachment)
    : MessageContent :=
  if (0 <? length atts)%nat then
    let parts := if truthy txt then [TextPart txt] else [] in
    Parts (push_attachments parts atts)
  else Raw txt.

(** Lines 40-76: make sure a session exists, build the payload and hand
    it to the remote endpoint.  [None] is the promise rejecting with
    "Failed to initialize chat session." *)
Definition sendMessageStream_call (txt : jsstring) (atts : list Attachment)
    : M (option MessageContent) :=
  w <- get ;;
  (match chatSession w with
   | None => initializeChat false
   | Some _ => ret tt
   end) ;;
  w1 <- get ;;
  match chatSession w1 with
  | None => ret None
  | Some _ =>
      let content := messageContent txt atts in
      modify (upd_sent (fun l => l ++ [content])) ;;
      ret (Some content)
  end.

(** Lines 78-83: [for await (const chunk of resultStream)], with the
    state [a] of the caller's closure threaded through [onChunk]. *)
Fixpoint deliver {A} (onChunk : A -> jsstring -> M A)
    (cs : list (option jsstring)) (a : A) : M A :=
  match cs with
  | [] => ret a
  | c :: cs' =>
      match c with
      | Some t =>
          if truthy t then a' <- onChunk a t ;; deliver onChunk cs' a'
          else deliver onChunk cs' a
      | None => deliver onChunk cs' a
      end
  end.

Definition sendMessageStream {A} (txt : jsstring) (atts : list Attachment)
    (onChunk : A -> jsstring -> M A) (a : A) (remote : RemoteStream)
    : M (StreamEnd * A) :=
  r <- sendMessageStream_call txt atts ;;
  match r with
  | None => ret (Rejects, a)
  | Some _ =>
      a' <- deliver onChunk (chunks remote) a ;;
      ret (ending remote, a')
  end.

(* ===================================================================== *)
(** ** Suggestion provider ([generateSuggestions]) *)
(* ===================================================================== *)

Module Suggestions.

(** Completion of a block: it returns a value or throws. *)
Inductive Completion (A : Type) :=
| Returns (a : A)
| Throws (e : Error).
Arguments Throws {A} e.

Definition try_catch {A} (body : Completion A)
    (handler : Error -> Completion A) : Completion A :=
  match body with
  | Returns a => Returns a
  | Throws e => handler e
  end.

(** What [await ai.models.generateContent(...)] does: it rejects, or
    it yields a response whose [text] may be undefined. *)
Inductive GenerateContent :=
| GenRejects (e : Error)
| GenResponds (response_text : option jsstring).

(** What the function hands back: the value [JSON.parse] produced, of
    whatever shape, or the array literal of the [catch] block. *)
Inductive Returned (J : Type) :=
| Parsed (v : J)
| Literal (l : list Suggestion).
Arguments Literal {J} l.

Definition FALLBACK : list Suggestion :=
  [ mkSuggestion [0xD83D; 0xDC0D]%N (js "Write a Python script for web scraping");
    mkSuggestion [0xD83C; 0xDFA8]%N (js "Explain CSS Grid vs Flexbox");
    mkSuggestion [0xD83D; 0xDC1B]%N (js "Debug this React useEffect hook");
    mkSuggestion [0xD83D; 0xDCCA]%N (js "Visualize data with Matplotlib") ].

Section WithParser.
Variable J : Type.
(** [JSON.parse]: a value, or a thrown [SyntaxError]. *)
Variable JSON_parse : jsstring -> Completion J.

Definition generateSuggestions_try (remote : GenerateContent)
    : Completion (Returned J) :=
  match remote with
  | GenRejects e => Throws e
  | GenResponds (Some t) =>
      if truthy t then
        match JSON_parse t with
        | Returns v => Returns (Parsed v)
        | Throws e => Throws e
        end
      else Throws (ErrorMsg (js "Empty response"))
  | GenResponds None => Throws (ErrorMsg (js "Empty response"))
  end.

Definition generateSuggestions (remote : GenerateContent)
    : Completion (Returned J) :=
  try_catch (generateSuggestions_try remote)
            (fun _ => Returns (Literal FALLBACK)).
End WithParser.

End Suggestions.

(* ===================================================================== *)
(** ** Attachment codec ([fileToBase64]) *)
(* ===================================================================== *)

Module Codec.

(** [reader.result] when [onload] fires. *)
Inductive ReaderResult :=
| ResultString (s : jsstring)
| ResultArrayBuffer
| ResultNull.

Inductive ReaderEvent :=
| OnLoad (result : ReaderResult)
| OnError (e : Error).

Inductive Promise (A : Type) :=
| Resolved (a : A)
| Rejected (e : Error).
Arguments Rejected {A} e.

(** The promise resolves with [reader.result.split(',')[1]], which is
    [undefined] ([None]) when the result has no comma. *)
Definition fileToBase64 (ev : ReaderEvent) : Promise (option jsstring) :=
  match ev with
  | OnLoad (ResultString result) =>
      Resolved (nth_error (split comma result) 1)
  | OnLoad _ => Rejected (ErrorMsg (js "Failed to convert file to string"))
  | OnError e => Rejected e
  end.

(** The result [readAsDataURL] gives for media type [mime] and the
    base64 text [payload] of the file's bytes. *)
Definition dataURL (mime payload : jsstring) : jsstring :=
  js "data:" ++ mime ++ js ";base64," ++ payload.

(** The base64 alphabet with its padding character. *)
Definition isBase64 (c : code_unit) : bool :=
  ((65 <=? c) && (c <=? 90) || (97 <=? c) && (c <=? 122)
   || (48 <=? c) && (c <=? 57) || (c =? 43) || (c =? 47) || (c =? 61))%N.

End Codec.

(* ===================================================================== *)
(** ** History store and conversation engine (the [App] component) *)
(* ===================================================================== *)

(** The closure state of one [handleSubmit] call that its [onChunk]
    callback reads and writes. *)
Record Attempt := mkAttempt {
  aiMessageId : jsstring;
  aiMessagePlaceholder : Message;
  fullResponse : jsstring
}.

(** [prev[prev.length - 1]]: undefined on the empty array. *)
Definition last_message (prev : list Message) : option Message :=
  match prev with
  | [] => None
  | m :: rest => Some (last rest m)
  end.

(** Lines 231-238, the updater handed to [setMessages] by [onChunk].
    Reading [.id] of an undefined last element throws. *)
Definition onChunk_updater (att : Attempt) (full : jsstring)
    (prev : list Message) : option (list Message) :=
  match last_message prev with
  | None => None
  | Some lastMsg =>
      if streq (id lastMsg) (aiMessageId att)
      then Some (removelast prev ++ [with_text lastMsg full])
      else Some (prev ++ [with_text (aiMessagePlaceholder att) full])
  end.

(** Lines 229-239, the callback itself. *)
Definition onChunk (att : Attempt) (chunk : jsstring) : M Attempt :=
  let full := fullResponse att ++ chunk in
  setMessages_throwing (onChunk_updater att full) ;;
  ret (mkAttempt (aiMessageId att) (aiMessagePlaceholder att) full).

Definition ERROR_NOTICE : jsstring :=
  js "I encountered an error connecting to the AI. Please check your API key and internet connection.".

(** [!activeChatId] is false exactly for a non-empty string. *)
Definition id_truthy (i : option jsstring) : bool :=
  match i with
  | Some s => truthy s
  | None => false
  end.

(** Lines 130, 135: the title of a saved conversation. *)
Definition derive_title (first_text : jsstring) : jsstring :=
  or_else
    (slice0 30 first_text
       ++ (if (30 <? length first_text)%nat then js "..." else []))
    (js "New Chat").

(** Lines 140-146, the updater of the history collection. *)
Definition upsert (chatId : jsstring) (newItem : ChatHistoryItem)
    (prev : list ChatHistoryItem) : list ChatHistoryItem :=
  match find (fun item => streq (item_id item) chatId) prev with
  | Some _ =>
      map (fun item => if streq (item_id item) chatId then newItem else item)
          prev
  | None => newItem :: prev
  end.

(** Line 193, the guard of [handleSubmit]. *)
Definition submit_rejected (w : World) : bool :=
  (negb (truthy (trim (inputText w)))
   && (length (attachments w) =? 0)%nat) || isLoading w.

(** Lines 80-81: the chunks whose text is handed to [onChunk], those
    with a defined, non-empty text. *)
Fixpoint delivered (cs : list (option jsstring)) : list jsstring :=
  match cs with
  | [] => []
  | Some t :: cs' => if truthy t then t :: delivered cs' else delivered cs'
  | None :: cs' => delivered cs'
  end.

Section Engine.

(** The successive readings of [Date.now()]. *)
Variable clock : nat -> N.

Definition Date_now : M N :=
  fun w => Ok (clock (ticks w)) (upd_ticks S w).

(** Lines 127-147. *)
Definition saveCurrentSession : M unit :=
  w <- get ;;
  match messages w with
  | [] => ret tt
  | m0 :: _ =>
      let title := derive_title (text m0) in
      chatId <- (match activeChatId w with
                 | Some i => if truthy i then ret i
                             else t <- Date_now ;; ret (toString t)
                 | None => t <- Date_now ;; ret (toString t)
                 end) ;;
      t <- Date_now ;;
      let newItem := mkItem chatId title (messages w) t in
      setHistory (upsert chatId newItem)
  end.

(** Lines 149-164.  The suggestions are cleared here; their refresh is
    a later event of its own. *)
Definition handleNewChat : M unit :=
  w <- get ;;
  (if (0 <? length (messages w))%nat then saveCurrentSession else ret tt) ;;
  setMessages (fun _ => []) ;;
  setAttachments (fun _ => []) ;;
  setHasStarted false ;;
  setActiveChatId None ;;
  resetChat ;;
  initializeChat (useThinking w) ;;
  setSuggestions [].

Definition opt_streq (a : option jsstring) (b : jsstring) : bool :=
  match a with
  | Some s => streq s b
  | None => false
  end.

(** Lines 166-181. *)
Definition loadHistoryItem (item : ChatHistoryItem) : M unit :=
  w <- get ;;
  (if (0 <? length (messages w))%nat
      && negb (opt_streq (activeChatId w) (item_id item))
   then saveCurrentSession else ret tt) ;;
  setMessages (fun _ => item_messages item) ;;
  setActiveChatId (Some (item_id item)) ;;
  setHasStarted true ;;
  setAttachments (fun _ => []).

(** Lines 183-189. *)
Definition deleteHistoryItem (i : jsstring) : M unit :=
  w <- get ;;
  setHistory (filter (fun item => negb (streq (item_id item) i))) ;;
  (if opt_streq (activeChatId w) i then handleNewChat else ret tt).

(** Lines 191-226: the guard, the user message, the flags and the
    placeholder.  [None] is the early [return]. *)
Definition handleSubmit_enter
    : M (option (Message * list Attachment * Attempt)) :=
  w <- get ;;
  if submit_rejected w then ret None
  else
    (if negb (id_truthy (activeChatId w))
     then t <- Date_now ;; setActiveChatId (Some (toString t))
     else ret tt) ;;
    let currentAttachments := attachments w in
    uid <- Date_now ;;
    uts <- Date_now ;;
    let userMessage :=
      mkMessage (toString uid) (trim (inputText w)) User uts None
                (Some currentAttachments) in
    setMessages (fun prev => prev ++ [userMessage]) ;;
    setInputText [] ;;
    setAttachments (fun _ => []) ;;
    setIsLoading true ;;
    setHasStarted true ;;
    aid <- Date_now ;;
    let aiId := toString (aid + 1)%N in
    ats <- Date_now ;;
    let placeholder := mkMessage aiId [] AI ats None None in
    ret (Some (userMessage, currentAttachments,
               mkAttempt aiId placeholder [])).

(** Lines 245-252. *)
Definition handleSubmit_catch : M unit :=
  eid <- Date_now ;;
  ets <- Date_now ;;
  setMessages (fun prev =>
    prev ++ [mkMessage (toString eid) ERROR_NOTICE AI ets None None]).

(** Lines 253-255. *)
Definition handleSubmit_finally : M unit := setIsLoading false.

(** [handleSubmit] run to its end against a remote stream, with no
    other user event in between. *)
Definition handleSubmit (remote : RemoteStream) : M unit :=
  r <- handleSubmit_enter ;;
  match r with
  | None => ret tt
  | Some (userMessage, currentAttachments, att) =>
      res <- sendMessageStream (text userMessage) currentAttachments
                               onChunk att remote ;;
      (match fst res with
       | Resolves => ret tt
       | Rejects => handleSubmit_catch
       end) ;;
      handleSubmit_finally
  end.

(** Saving [msgs] under conversation [cid]: the state the engine is in
    when it saves, then [saveCurrentSession]. *)
Definition save (cid : jsstring) (msgs : list Message) : M unit :=
  setMessages (fun _ => msgs) ;;
  setActiveChatId (Some cid) ;;
  saveCurrentSession.

Fixpoint saves (l : list (jsstring * list Message)) : M unit :=
  match l with
  | [] => ret tt
  | (cid, msgs) :: l' => save cid msgs ;; saves l'
  end.

End Engine.

(* ===================================================================== *)
(** ** Vocabulary of the statements and sample inputs *)
(* ===================================================================== *)

(** Some item of the collection has the id [cid]. *)
Definition has_id (cid : jsstring) (prev : list ChatHistoryItem) : bool :=
  existsb (fun item => streq (item_id item) cid) prev.

(** The remote call or the parsing of its response fails. *)
Definition suggestion_failure {J : Type}
    (JSON_parse : jsstring -> Suggestions.Completion J)
    (remote : Suggestions.GenerateContent) : Prop :=
  match remote with
  | Suggestions.GenRejects _ => True
  | Suggestions.GenResponds None => True
  | Suggestions.GenResponds (Some t) =>
      t = [] \/ exists e, JSON_parse t = Suggestions.Throws e
  end.

Module Sample.

(** A clock that advances by one millisecond at every reading. *)
Definition clk (i : nat) : N := (1000 + N.of_nat i)%N.

(** A clock that is read twice per millisecond. *)
Definition slow_clk (i : nat) : N := (1000 + N.of_nat (i / 2))%N.

Definition image : Attachment :=
  mkAttachment (js "image/png") (js "iVBORw0KGgo=") (js "a.png").

(** A fresh application with " hi " typed in. *)
Definition w_hi : World :=
  mkWorld [] (js " hi ") [] false false [] [] None false None [] 0.

(** A send is in flight. *)
Definition w_loading : World :=
  mkWorld [] (js "again") [] true false [] [] (Some (js "1000")) true None [] 5.

(** Blank input and no attachment. *)
Definition w_blank : World :=
  mkWorld [] (js "   ") [] false false [] [] None false None [] 0.

(** A conversation whose first message is an image sent with no text. *)
Definition image_only : Message :=
  mkMessage (js "1001") [] User 1002%N None (Some [image]).

Definition w_image_only : World :=
  mkWorld [image_only] [] [] false false [] [] (Some (js "1000")) true None
          [] 5.

(** A stored conversation. *)
Definition old_message : Message :=
  mkMessage (js "17") (js "what is a monad") User 17%N None (Some []).

Definition old_item : ChatHistoryItem :=
  mkItem (js "16") (js "what is a monad") [old_message] 20%N.

Definition w_with_history : World :=
  mkWorld [] (js "hi") [] false false [] [old_item] None false None [] 0.

End Sample.

(** [Date.now()] never goes backwards. *)
Definition clock_monotone (clock : nat -> N) : Prop :=
  forall i j, i <= j -> (clock i <= clock j)%N.

(** The position in the clock of the reading that becomes the id of the
    user message: [handleSubmit] takes one reading before it when it has
    to allocate the conversation id. *)
Definition first_reading (w : World) : nat :=
  (if id_truthy (activeChatId w) then 0 else 1) + ticks w.

(** The values an accepted [handleSubmit] builds, lines 203-224 and
    247-252, by the readings of the clock they come from. *)
Definition userMessage_of (clock : nat -> N) (w : World) : Message :=
  mkMessage (toString (clock (first_reading w))) (trim (inputText w)) User
            (clock (1 + first_reading w)) None (Some (attachments w)).

Definition attempt_of (clock : nat -> N) (w : World) : Attempt :=
  let aiId := toString (clock (2 + first_reading w)%nat + 1)%N in
  mkAttempt aiId (mkMessage aiId [] AI (clock (3 + first_reading w)) None None)
            [].

Definition error_message_of (clock : nat -> N) (w : World) : Message :=
  mkMessage (toString (clock (4 + first_reading w))) ERROR_NOTICE AI
            (clock (5 + first_reading w)) None None.

(** The part of the timeline an attempt leaves behind for the increments
    it was handed: nothing for none, else the placeholder carrying their
    concatenation. *)
Definition ai_part (clock : nat -> N) (w : World) (texts : list jsstring)
    : list Message :=
  match texts with
  | [] => []
  | _ :: _ =>
      [with_text (aiMessagePlaceholder (attempt_of clock w)) (concat texts)]
  end.

(** The part of the timeline the end of the stream leaves behind. *)
Definition error_part (clock : nat -> N) (w : World) (e : StreamEnd)
    : list Message :=
  match e with
  | Resolves => []
  | Rejects => [error_message_of clock w]
  end.

Module SampleRuns.
Import Sample.

(** The stream of the specification's example, with a chunk without
    text and a chunk with an empty text in between. *)
Definition hello : RemoteStream :=
  mkRemote [Some (js "Hel"); None; Some []; Some (js "lo!")] Resolves.

(** A stream that ends well without any increment. *)
Definition silent : RemoteStream := mkRemote [] Resolves.

(** A stream that fails after one increment, and one that fails
    before any. *)
Definition broken : RemoteStream := mkRemote [Some (js "par")] Rejects.
Definition refused : RemoteStream := mkRemote [] Rejects.

(** A parser that rejects every text. *)
Definition no_parse (_ : jsstring) : Suggestions.Completion unit :=
  Suggestions.Throws (ErrorMsg (js "SyntaxError")).

End SampleRuns.

(* ===================================================================== *)
(** ** The rest of the [App] component and the attachment display *)
(* ===================================================================== *)

(** Line 273: whether the send button is enabled. *)
Definition isSendActive (w : World) : bool :=
  (truthy (trim (inputText w)) || (0 <? length (attachments w))%nat)
  && negb (isLoading w).

(** Lines 76-79; the resizing of the text area is presentation. *)
Definition handleInputChange (value : jsstring) : M unit :=
  setInputText value.

(** [l.filter((_, i) => keep i)], with [i] counted from [start]. *)
Fixpoint filter_index {A} (keep : nat -> bool) (start : nat) (l : list A)
    : list A :=
  match l with
  | [] => []
  | x :: l' =>
      if keep start then x :: filter_index keep (S start) l'
      else filter_index keep (S start) l'
  end.

(** Lines 122-124. *)
Definition removeAttachment (index : nat) : M unit :=
  setAttachments (filter_index (fun i => negb (i =? index)%nat) 0).

(** [s.startsWith(p)]. *)
Fixpoint startsWith (p s : jsstring) : bool :=
  match p, s with
  | [], _ => true
  | c :: p', d :: s' => N.eqb c d && startsWith p' s'
  | _ :: _, [] => false
  end.

(** [components/ChatMessage.tsx], lines 112-113, and lines 477-478 of the
    [App] component: an attachment is shown as an image, from a rebuilt
    data URL, when its media type starts with "image/"; otherwise a file
    icon is shown and no URL is built. *)
Definition image_src (att : Attachment) : option jsstring :=
  if startsWith (js "image/") (mimeType att)
  then Some (js "data:" ++ mimeType att ++ js ";base64," ++ data att)
  else None.

(** Lines 259-263 of the [App] component: the effect that saves the
    conversation when no send is in flight. *)
Definition autoSave_effect (clock : nat -> N) : M unit :=
  w <- get ;;
  if negb (isLoading w) && (0 <? length (messages w))%nat
     && id_truthy (activeChatId w)
  then saveCurrentSession clock
  else ret tt.

(** The session [initializeChat] creates. *)
Definition session_for (thinking : bool) : Chat :=
  mkChat (js "gemini-2.5-flash") (if thinking then Some 4096%N else None).

(** A callback that records the texts it is handed. *)
Definition record_chunk (seen : list jsstring) (t : jsstring)
    : M (list jsstring) :=
  ret (seen ++ [t]).

(** The texts the chunks of a stream carry, one per chunk that has one. *)
Definition chunk_texts (cs : list (option jsstring)) : list jsstring :=
  flat_map (fun c => match c with Some t => [t] | None => [] end) cs.

Module MoreSamples.

(** A conversation of two messages under the id "1000", idle. *)
Definition question : Message :=
  mkMessage (js "1001") (js "hi") User 1002%N None (Some []).
Definition answer : Message :=
  mkMessage (js "1004") (js "Hello!") AI 1004%N None None.
Definition w_talk : World :=
  mkWorld [question; answer] (js "next") [Sample.image] false true [] [Sample.old_item]
          (Some (js "1000")) true (Some (session_for true)) [] 5.

(** Only an image is pending, nothing typed but a blank. *)
Definition w_image_pending : World :=
  mkWorld [] (js " ") [Sample.image] false false [] [] None false None [] 0.

(** The attempt whose message is the last of [w_talk]. *)
Definition att_talk : Attempt :=
  mkAttempt (js "1004") answer (js "Hello!").

(** A clock that steps back by one millisecond after its third
    reading. *)
Definition back_clk (i : nat) : N :=
  if (i <=? 2)%nat then 1001%N else 1000%N.

(** A parser that accepts every text. *)
Definition any_parse (t : jsstring) : Suggestions.Completion jsstring :=
  Suggestions.Returns t.

End MoreSamples.

(* ===================================================================== *)
(** * Properties *)
(* ===================================================================== *)

Unset Implicit Arguments.

(** Unfolds the plumbing of the handler monad. *)
Ltac run_handlers :=
  cbv beta iota delta
    [bind ret get modify setMessages setInputText setAttachments setIsLoading
     setSuggestions setHistory setActiveChatId setHasStarted Date_now
     resetChat initializeChat];
  cbn.

(** ** Strings *)

Lemma streq_true_iff (a b : jsstring) : streq a b = true <-> a = b.
Proof.
  revert b; induction a as [|x a IH]; intros [|y b]; simpl;
    try (split; [discriminate | discriminate]); [tauto |].
  rewrite andb_true_iff, N.eqb_eq, IH.
  split; [intros [-> ->]; reflexivity | intros [= -> ->]; auto].
Qed.

Lemma streq_refl (a : jsstring) : streq a a = true.
Proof. apply streq_true_iff; reflexivity. Qed.

Lemma streq_false_iff (a b : jsstring) : streq a b = false <-> a <> b.
Proof.
  rewrite <- streq_true_iff. destruct (streq a b); split; congruence.
Qed.

Lemma N_of_ascii_inj (a b : ascii) : N_of_ascii a = N_of_ascii b -> a = b.
Proof.
  intros H. rewrite <- (ascii_N_embedding a), <- (ascii_N_embedding b).
  now rewrite H.
Qed.

Lemma js_inj (s t : string) : js s = js t -> s = t.
Proof.
  unfold js. revert t.
  induction s as [|c s IH]; intros [|d t]; simpl; try discriminate; auto.
  intros [= Hc Hs]. apply N_of_ascii_inj in Hc. apply IH in Hs. congruence.
Qed.

Lemma to_uint_nonnil (n : N) : N.to_uint n <> Decimal.Nil.
Proof.
  rewrite <- (DecimalN.Unsigned.of_to n) at 1.
  rewrite DecimalN.Unsigned.to_of. apply DecimalFacts.unorm_nonnil.
Qed.

Lemma toString_inj (a b : N) : toString a = toString b -> a = b.
Proof.
  unfold toString. intros H. apply js_inj in H.
  apply DecimalN.Unsigned.to_uint_inj.
  assert (Ha := NilZero.usu _ (to_uint_nonnil a)).
  assert (Hb := NilZero.usu _ (to_uint_nonnil b)).
  rewrite H in Ha. congruence.
Qed.

Lemma toString_truthy (n : N) : truthy (toString n) = true.
Proof.
  unfold toString.
  destruct (NilZero.string_of_uint (N.to_uint n)) eqn:E; [|reflexivity].
  exfalso. assert (H := NilZero.usu _ (to_uint_nonnil n)).
  rewrite E in H. discriminate.
Qed.

Lemma split_no_sep (sep : code_unit) (s : jsstring) :
  ~ In sep s -> split sep s = [s].
Proof.
  induction s as [|c s IH]; simpl; intros H; [reflexivity|].
  destruct (N.eqb_spec c sep) as [->|_]; [exfalso; auto|].
  rewrite IH by tauto. reflexivity.
Qed.

Lemma split_app_sep (sep : code_unit) (a b : jsstring) :
  ~ In sep a -> split sep (a ++ sep :: b) = a :: split sep b.
Proof.
  induction a as [|c a IH]; simpl; intros H.
  - now rewrite N.eqb_refl.
  - destruct (N.eqb_spec c sep) as [->|_]; [exfalso; auto|].
    rewrite IH by tauto. reflexivity.
Qed.

(** ** Remote session client: the request payload *)

Lemma push_attachments_map (parts : list Part) (atts : list Attachment) :
  push_attachments parts atts
  = parts ++ map (fun att => InlineData (mimeType att) (data att)) atts.
Proof.
  unfold push_attachments. revert parts.
  induction atts as [|a atts IH]; intros parts; simpl.
  - now rewrite app_nil_r.
  - rewrite IH, <- app_assoc. reflexivity.
Qed.

Lemma sendMessageStream_call_run (txt : jsstring) (atts : list Attachment)
    (w : World) :
  sendMessageStream_call txt atts w
  = Ok (Some (messageContent txt atts))
       (upd_sent (fun l => l ++ [messageContent txt atts])
          (match chatSession w with
           | None => upd_chatSession
                       (Some (mkChat (js "gemini-2.5-flash") None)) w
           | Some _ => w
           end)).
Proof.
  unfold sendMessageStream_call, bind, get.
  destruct (chatSession w) eqn:E; cbn; [rewrite E|]; reflexivity.
Qed.

(** C5.  The request payload of the remote send operation: with no
    attachment it is the raw text; with attachments it is the sequence of
    parts made of one text part, left out when the text is empty, followed
    by one inline-data part per attachment, in the order of the list, each
    with the media type and the data of its attachment.  Every call hands
    exactly this payload to the remote endpoint. *)
Theorem sendMessageStream_payload (txt : jsstring) (atts : list Attachment) :
  messageContent txt atts
  = match atts with
    | [] => Raw txt
    | _ :: _ =>
        Parts ((match txt with [] => [] | _ :: _ => [TextPart txt] end)
               ++ map (fun att => InlineData (mimeType att) (data att)) atts)
    end
  /\ forall w : World,
      exists w', sendMessageStream_call txt atts w
                 = Ok (Some (messageContent txt atts)) w'
                 /\ sent w' = sent w ++ [messageContent txt atts].
Proof.
  split.
  - unfold messageContent. destruct atts as [|a atts]; [reflexivity|].
    cbn [length Nat.ltb Nat.leb]. rewrite push_attachments_map.
    destruct txt; reflexivity.
  - intros w. eexists. split; [apply sendMessageStream_call_run|].
    destruct (chatSession w); reflexivity.
Qed.

(** The example of the specification: one image and no text give a
    payload of exactly one part, the inline image. *)
Example payload_image_only (att : Attachment) :
  messageContent [] [att] = Parts [InlineData (mimeType att) (data att)].
Proof. reflexivity. Qed.

(** ** Attachment codec *)

Lemma isBase64_not_comma (c : code_unit) :
  Codec.isBase64 c = true -> c <> comma.
Proof.
  unfold Codec.isBase64, comma. intros H ->. vm_compute in H. discriminate.
Qed.

(** C9.  When the reader yields the data URL of a file, that is the
    scheme prefix with a media type free of commas, the comma, and the
    base64 text of the bytes, [fileToBase64] resolves with exactly the
    base64 text: the prefix up to and including the comma is gone. *)
Theorem fileToBase64_strips_prefix (mime payload : jsstring) :
  ~ In comma mime ->
  forallb Codec.isBase64 payload = true ->
  Codec.fileToBase64 (Codec.OnLoad (Codec.ResultString (Codec.dataURL mime payload)))
  = Codec.Resolved (Some payload).
Proof.
  intros Hmime Hpay. unfold Codec.fileToBase64, Codec.dataURL.
  assert (Hp : ~ In comma payload).
  { intros Hin. rewrite forallb_forall in Hpay.
    apply (isBase64_not_comma _ (Hpay _ Hin)). reflexivity. }
  replace (js "data:" ++ mime ++ js ";base64," ++ payload)
    with ((js "data:" ++ mime ++ js ";base64") ++ comma :: payload).
  2:{ rewrite <- !app_assoc. reflexivity. }
  rewrite split_app_sep, (split_no_sep _ _ Hp); [reflexivity|].
  rewrite !in_app_iff. intros [H|[H|H]]; [|tauto|];
    vm_compute in H; intuition discriminate.
Qed.

(** ** Suggestion provider *)

(** C10.  Whenever the remote call or the parsing of its response fails,
    [generateSuggestions] returns the fixed fallback sequence, which has
    exactly 4 items; and whatever the remote call and the parser do, it
    returns a value and never throws. *)
Theorem generateSuggestions_never_throws (J : Type)
    (JSON_parse : jsstring -> Suggestions.Completion J)
    (remote : Suggestions.GenerateContent) :
  (suggestion_failure JSON_parse remote ->
     Suggestions.generateSuggestions JSON_parse remote
     = Suggestions.Returns (Suggestions.Literal Suggestions.FALLBACK))
  /\ length Suggestions.FALLBACK = 4
  /\ exists v, Suggestions.generateSuggestions JSON_parse remote
               = Suggestions.Returns v.
Proof.
  unfold Suggestions.generateSuggestions, Suggestions.generateSuggestions_try,
    Suggestions.try_catch.
  repeat split.
  - destruct remote as [e|[t|]]; simpl; try reflexivity.
    intros [->|[e He]]; [reflexivity|].
    destruct (truthy t); [rewrite He|]; reflexivity.
  - destruct remote as [e|[t|]]; simpl; eauto.
    destruct (truthy t); eauto.
    destruct (JSON_parse t); eauto.
Qed.

(** ** History store *)

Section HistoryStore.

Variable clock : nat -> N.


Lemma find_has_id (cid : jsstring) (prev : list ChatHistoryItem) :
  find (fun item => streq (item_id item) cid) prev = None
  <-> has_id cid prev = false.
Proof.
  unfold has_id. induction prev as [|x prev IH]; simpl; [tauto|].
  destruct (streq (item_id x) cid); simpl; [split; discriminate | exact IH].
Qed.

Lemma has_id_In (cid : jsstring) (prev : list ChatHistoryItem) :
  has_id cid prev = true <-> In cid (map item_id prev).
Proof.
  unfold has_id. rewrite existsb_exists, in_map_iff.
  split; intros [x [H1 H2]]; exists x.
  - apply streq_true_iff in H2. tauto.
  - split; [tauto|]. apply streq_true_iff. tauto.
Qed.

Lemma upsert_cases (cid : jsstring) (item : ChatHistoryItem)
    (prev : list ChatHistoryItem) :
  upsert cid item prev
  = if has_id cid prev
    then map (fun it => if streq (item_id it) cid then item else it) prev
    else item :: prev.
Proof.
  unfold upsert.
  destruct (has_id cid prev) eqn:E.
  - destruct (find _ prev) eqn:F; [reflexivity|].
    apply find_has_id in F. congruence.
  - apply find_has_id in E. now rewrite E.
Qed.

Lemma upsert_ids (cid : jsstring) (item : ChatHistoryItem)
    (prev : list ChatHistoryItem) :
  item_id item = cid ->
  map item_id (upsert cid item prev)
  = if has_id cid prev then map item_id prev else cid :: map item_id prev.
Proof.
  intros Hid. rewrite upsert_cases.
  destruct (has_id cid prev); simpl; [|now rewrite Hid].
  rewrite map_map. apply map_ext. intros it.
  destruct (streq (item_id it) cid) eqn:E; [|reflexivity].
  apply streq_true_iff in E. congruence.
Qed.

Lemma upsert_NoDup (cid : jsstring) (item : ChatHistoryItem)
    (prev : list ChatHistoryItem) :
  item_id item = cid ->
  NoDup (map item_id prev) ->
  NoDup (map item_id (upsert cid item prev)).
Proof.
  intros Hid Hnd. rewrite (upsert_ids _ _ _ Hid).
  destruct (has_id cid prev) eqn:E; [exact Hnd|].
  constructor; [|exact Hnd].
  intros Hin. apply has_id_In in Hin. congruence.
Qed.

Lemma upsert_In (cid : jsstring) (item : ChatHistoryItem)
    (prev : list ChatHistoryItem) :
  In item (upsert cid item prev).
Proof.
  rewrite upsert_cases. destruct (has_id cid prev) eqn:E; [|now left].
  unfold has_id in E. apply existsb_exists in E. destruct E as [x [Hx Hs]].
  apply in_map_iff. exists x. now rewrite Hs.
Qed.

Lemma NoDup_ids_unique (l : list ChatHistoryItem) (a b : ChatHistoryItem) :
  NoDup (map item_id l) -> In a l -> In b l -> item_id a = item_id b ->
  a = b.
Proof.
  induction l as [|x l IH]; simpl; [tauto|].
  intros Hnd [->|Ha] [->|Hb] Heq; try reflexivity.
  - inversion Hnd as [|? ? Hn _]; subst. exfalso. apply Hn.
    rewrite Heq. now apply in_map.
  - inversion Hnd as [|? ? Hn _]; subst. exfalso. apply Hn.
    rewrite <- Heq. now apply in_map.
  - inversion Hnd; subst. now apply IH.
Qed.

(** What one save does to the world. *)
Lemma saveCurrentSession_empty (w : World) :
  messages w = [] -> saveCurrentSession clock w = Ok tt w.
Proof.
  intros H. unfold saveCurrentSession, bind, get. now rewrite H.
Qed.

Lemma save_empty (cid : jsstring) (w : World) :
  exists w', save clock cid [] w = Ok tt w' /\ history w' = history w
             /\ ticks w' = ticks w.
Proof.
  unfold save, saveCurrentSession. run_handlers.
  eexists. split; [reflexivity|]. split; reflexivity.
Qed.

Lemma save_nonempty (cid : jsstring) (m0 : Message) (rest : list Message)
    (w : World) :
  cid <> [] ->
  exists w',
    save clock cid (m0 :: rest) w = Ok tt w'
    /\ history w'
       = upsert cid (mkItem cid (derive_title (text m0)) (m0 :: rest)
                            (clock (ticks w)))
                (history w)
    /\ ticks w' = S (ticks w).
Proof.
  intros Hc. destruct cid as [|c cid]; [congruence|].
  unfold save, saveCurrentSession. run_handlers.
  eexists. split; [reflexivity|]. split; reflexivity.
Qed.

Lemma save_total (cid : jsstring) (msgs : list Message) (w : World) :
  exists w', save clock cid msgs w = Ok tt w'
    /\ (NoDup (map item_id (history w)) -> NoDup (map item_id (history w'))).
Proof.
  destruct msgs as [|m0 rest].
  - destruct (save_empty cid w) as [w' [H1 [H2 _]]].
    exists w'. split; [exact H1|]. now rewrite H2.
  - unfold save, saveCurrentSession. run_handlers.
    destruct cid as [|c cid]; cbn; eexists; (split; [reflexivity|]);
      cbn; intros Hnd; apply upsert_NoDup; auto.
Qed.

Lemma saves_total (l : list (jsstring * list Message)) :
  forall w, exists w', saves clock l w = Ok tt w'
    /\ (NoDup (map item_id (history w)) -> NoDup (map item_id (history w'))).
Proof.
  induction l as [|[cid msgs] l IH]; intros w; simpl.
  - exists w. split; [reflexivity | auto].
  - destruct (save_total cid msgs w) as [w1 [H1 N1]].
    destruct (IH w1) as [w2 [H2 N2]].
    exists w2. unfold bind. rewrite H1. split; [exact H2 | auto].
Qed.

End HistoryStore.

Section HistoryStoreClaims.

Variable clock : nat -> N.

Lemma saves_app (l1 l2 : list (jsstring * list Message)) (w : World) :
  saves clock (l1 ++ l2) w = bind (saves clock l1) (fun _ => saves clock l2) w.
Proof.
  revert w. induction l1 as [|[cid msgs] l1 IH]; intros w; simpl.
  - reflexivity.
  - unfold bind in *. destruct (save clock cid msgs w); [apply IH | reflexivity].
Qed.

(** C6.  Saving a non-empty message list under a conversation id, in a
    collection with one item per id: when an item with that id exists it
    is replaced where it stands, the ids of the collection keeping their
    places, and otherwise the new item is put in front; after any
    sequence of saves followed by this one the collection still has at
    most one item per id, and the item of this id carries the messages
    and the timestamp of this last save.  Saving an empty message list
    leaves the collection, indeed the whole state, as it was. *)
Theorem save_upserts_history (w : World)
    (l : list (jsstring * list Message))
    (cid : jsstring) (m0 : Message) (rest : list Message) :
  cid <> [] ->
  NoDup (map item_id (history w)) ->
  let newItem t := mkItem cid (derive_title (text m0)) (m0 :: rest) t in
  (exists w',
      save clock cid (m0 :: rest) w = Ok tt w'
      /\ history w'
         = (if has_id cid (history w)
            then map (fun it => if streq (item_id it) cid
                                then newItem (clock (ticks w)) else it)
                     (history w)
            else newItem (clock (ticks w)) :: history w)
      /\ map item_id (history w')
         = (if has_id cid (history w) then map item_id (history w)
            else cid :: map item_id (history w)))
  /\ (exists w', save clock cid [] w = Ok tt w' /\ history w' = history w)
  /\ (forall w0, messages w0 = [] -> saveCurrentSession clock w0 = Ok tt w0)
  /\ (exists w1 w2,
        saves clock l w = Ok tt w1
        /\ saves clock (l ++ [(cid, m0 :: rest)]) w = Ok tt w2
        /\ NoDup (map item_id (history w2))
        /\ In (newItem (clock (ticks w1))) (history w2)
        /\ forall it, In it (history w2) -> item_id it = cid ->
                      it = newItem (clock (ticks w1))).
Proof.
  intros Hcid Hnd newItem. repeat split.
  - destruct (save_nonempty clock cid m0 rest w Hcid) as [w' [H1 [H2 _]]].
    exists w'. split; [exact H1|]. rewrite H2. split.
    + apply upsert_cases.
    + apply upsert_ids. reflexivity.
  - destruct (save_empty clock cid w) as [w' [H1 [H2 _]]]. eauto.
  - apply saveCurrentSession_empty.
  - destruct (saves_total clock l w) as [w1 [H1 N1]].
    destruct (save_nonempty clock cid m0 rest w1 Hcid) as [w2 [H2 [H3 _]]].
    exists w1, w2. split; [exact H1|].
    assert (Hnd2 : NoDup (map item_id (history w2))).
    { rewrite H3. apply upsert_NoDup; [reflexivity | auto]. }
    assert (Hin : In (newItem (clock (ticks w1))) (history w2)).
    { rewrite H3. apply upsert_In. }
    split; [|split; [exact Hnd2 | split; [exact Hin|]]].
    + rewrite saves_app. unfold bind at 1. rewrite H1. simpl.
      unfold bind. rewrite H2. reflexivity.
    + intros it Hit Hid.
      apply (NoDup_ids_unique (history w2)); auto.
Qed.

(** C8 as amended.  The title of a saved conversation is a function of
    the text of its first message: the first 30 code units followed by
    three dots when the text is longer than 30, the text itself when it
    has between 1 and 30 code units, and the fixed title "New Chat" when
    the text is empty. *)
Theorem saved_title (w : World) (m0 : Message) (rest : list Message) :
  messages w = m0 :: rest ->
  exists w' item,
    saveCurrentSession clock w = Ok tt w'
    /\ In item (history w')
    /\ item_messages item = m0 :: rest
    /\ title item
       = (if (30 <? length (text m0))%nat
          then firstn 30 (text m0) ++ js "..."
          else match text m0 with
               | [] => js "New Chat"
               | _ :: _ => text m0
               end).
Proof.
  intros Hm.
  assert (Ht : derive_title (text m0)
               = (if (30 <? length (text m0))%nat
                  then firstn 30 (text m0) ++ js "..."
                  else match text m0 with
                       | [] => js "New Chat"
                       | _ :: _ => text m0
                       end)).
  { unfold derive_title, or_else, slice0.
    destruct (Nat.ltb_spec 30 (length (text m0))) as [Hl|Hl].
    - destruct (text m0) as [|c t]; [simpl in Hl; lia | reflexivity].
    - rewrite app_nil_r, firstn_all2 by exact Hl.
      destruct (text m0); reflexivity. }
  unfold saveCurrentSession. run_handlers. rewrite Hm.
  destruct (activeChatId w) as [[|c i]|]; cbn;
    eexists; eexists; (split; [reflexivity|]); cbn;
    (split; [apply upsert_In|]); (split; [reflexivity | exact Ht]).
Qed.

End HistoryStoreClaims.

Lemma save_upserts_history_witness :
  exists w1 w2,
    saves Sample.clk [(js "16", [Sample.old_message])] Sample.w_with_history
    = Ok tt w1
    /\ saves Sample.clk ([(js "16", [Sample.old_message])]
                         ++ [(js "1000", [Sample.image_only])])
             Sample.w_with_history = Ok tt w2
    /\ NoDup (map item_id (history w2)).
Proof.
  assert (Hc : js "1000" <> []) by discriminate.
  assert (Hn : NoDup (map item_id (history Sample.w_with_history))).
  { repeat constructor. simpl. tauto. }
  destruct (save_upserts_history Sample.clk Sample.w_with_history
              [(js "16", [Sample.old_message])] (js "1000")
              Sample.image_only [] Hc Hn)
    as (_ & _ & _ & w1 & w2 & H1 & H2 & H3 & _).
  exists w1, w2. auto.
Defined.

Lemma saved_title_witness :
  exists w' item,
    saveCurrentSession Sample.clk Sample.w_image_only = Ok tt w'
    /\ In item (history w')
    /\ title item = js "New Chat".
Proof.
  destruct (saved_title Sample.clk Sample.w_image_only Sample.image_only []
              eq_refl) as (w' & item & H1 & H2 & _ & H4).
  exists w', item. auto.
Defined.

(** C8 as stated fails on a conversation opened by an image sent with no
    text: the first text is empty, so at most 30 long, yet the title is
    not that text. *)
Lemma empty_first_text_is_titled_New_Chat :
  exists w' item,
    saveCurrentSession Sample.clk Sample.w_image_only = Ok tt w'
    /\ history w' = [item]
    /\ length (text Sample.image_only) <= 30
    /\ title item <> text Sample.image_only.
Proof.
  eexists. eexists. split; [cbv; reflexivity|]. split; [reflexivity|].
  split; [simpl; lia | discriminate].
Qed.

(** ** Conversation engine: folding the increments *)

Lemma last_message_snoc (pre : list Message) (m : Message) :
  last_message (pre ++ [m]) = Some m.
Proof.
  unfold last_message. destruct pre as [|x pre]; simpl; [reflexivity|].
  f_equal. apply last_last.
Qed.

Lemma with_text_same (m : Message) : with_text m (text m) = m.
Proof. destruct m; reflexivity. Qed.

Lemma upd_messages_same (w : World) :
  upd_messages (fun _ => messages w) w = w.
Proof. destruct w; reflexivity. Qed.

(** The increment that finds the attempt's message last replaces it. *)
Lemma onChunk_replaces (att : Attempt) (chunk : jsstring) (w : World)
    (pre : list Message) (m : Message) :
  messages w = pre ++ [m] ->
  id m = aiMessageId att ->
  onChunk att chunk w
  = Ok (mkAttempt (aiMessageId att) (aiMessagePlaceholder att)
                  (fullResponse att ++ chunk))
       (upd_messages
          (fun _ => pre ++ [with_text m (fullResponse att ++ chunk)]) w).
Proof.
  intros Hm Hid. unfold onChunk, setMessages_throwing, onChunk_updater, bind.
  rewrite Hm, last_message_snoc, Hid, streq_refl, removelast_last.
  reflexivity.
Qed.

(** The increment that finds another message last appends a copy of the
    placeholder with the accumulated text. *)
Lemma onChunk_appends (att : Attempt) (chunk : jsstring) (w : World)
    (pre : list Message) (m : Message) :
  messages w = pre ++ [m] ->
  id m <> aiMessageId att ->
  onChunk att chunk w
  = Ok (mkAttempt (aiMessageId att) (aiMessagePlaceholder att)
                  (fullResponse att ++ chunk))
       (upd_messages
          (fun _ => messages w
                    ++ [with_text (aiMessagePlaceholder att)
                                  (fullResponse att ++ chunk)]) w).
Proof.
  intros Hm Hid. unfold onChunk, setMessages_throwing, onChunk_updater, bind.
  apply streq_false_iff in Hid.
  rewrite Hm, last_message_snoc, Hid. reflexivity.
Qed.

(** On an empty timeline the updater throws. *)
Lemma onChunk_empty_timeline (att : Attempt) (chunk : jsstring) (w : World) :
  messages w = [] -> onChunk att chunk w = Uncaught TypeError.
Proof.
  intros Hm. unfold onChunk, setMessages_throwing, onChunk_updater, bind.
  now rewrite Hm.
Qed.

Lemma deliver_continues (cs : list (option jsstring)) :
  forall (att : Attempt) (w : World) (pre : list Message) (m : Message),
    messages w = pre ++ [m] ->
    id m = aiMessageId att ->
    deliver onChunk cs att w
    = Ok (mkAttempt (aiMessageId att) (aiMessagePlaceholder att)
                    (fullResponse att ++ concat (delivered cs)))
         (match delivered cs with
          | [] => w
          | _ :: _ =>
              upd_messages
                (fun _ => pre ++ [with_text m (fullResponse att
                                               ++ concat (delivered cs))]) w
          end).
Proof.
  induction cs as [|[[|c t]|] cs IH]; intros att w pre m Hm Hid; simpl.
  - rewrite app_nil_r. destruct att; reflexivity.
  - apply (IH att w pre m Hm Hid).
  - unfold bind. rewrite (onChunk_replaces att (c :: t) w pre m Hm Hid).
    erewrite IH; [|reflexivity|exact Hid].
    cbn [aiMessageId aiMessagePlaceholder fullResponse].
    rewrite <- app_assoc.
    destruct (delivered cs); [|reflexivity].
    simpl. now rewrite !app_nil_r.
  - apply (IH att w pre m Hm Hid).
Qed.

Lemma deliver_fresh (cs : list (option jsstring)) :
  forall (att : Attempt) (w : World) (pre : list Message) (m : Message),
    messages w = pre ++ [m] ->
    id m <> aiMessageId att ->
    id (aiMessagePlaceholder att) = aiMessageId att ->
    deliver onChunk cs att w
    = Ok (mkAttempt (aiMessageId att) (aiMessagePlaceholder att)
                    (fullResponse att ++ concat (delivered cs)))
         (match delivered cs with
          | [] => w
          | _ :: _ =>
              upd_messages
                (fun _ => messages w
                          ++ [with_text (aiMessagePlaceholder att)
                                (fullResponse att ++ concat (delivered cs))]) w
          end).
Proof.
  induction cs as [|[[|c t]|] cs IH]; intros att w pre m Hm Hid Hph; simpl.
  - rewrite app_nil_r. destruct att; reflexivity.
  - apply (IH att w pre m Hm Hid Hph).
  - unfold bind. rewrite (onChunk_appends att (c :: t) w pre m Hm Hid).
    erewrite deliver_continues; [|reflexivity|exact Hph].
    cbn [aiMessageId aiMessagePlaceholder fullResponse].
    rewrite <- app_assoc.
    destruct (delivered cs); [|reflexivity].
    simpl. now rewrite !app_nil_r.
  - apply (IH att w pre m Hm Hid Hph).
Qed.

(** The increments folded into the attempt are all the texts of the
    stream, in order: the chunks left out carry no text. *)
Lemma concat_delivered (cs : list (option jsstring)) :
  concat (delivered cs)
  = concat (map (fun c => match c with Some t => t | None => [] end) cs).
Proof.
  induction cs as [|[[|c t]|] cs IH]; simpl; try exact IH.
  - reflexivity.
  - now rewrite IH.
Qed.

(** Chunks that carry no text never reach the callback. *)
Lemma deliver_nothing (cs : list (option jsstring)) (att : Attempt)
    (w : World) :
  delivered cs = [] -> deliver onChunk cs att w = Ok att w.
Proof.
  induction cs as [|[[|c t]|] cs IH]; simpl; intros H;
    try reflexivity; try (apply IH; exact H).
  discriminate.
Qed.

(** ** Conversation engine: one submit *)

Section Submit.

Variable clock : nat -> N.

Lemma ai_id_is_new (w : World) :
  clock_monotone clock ->
  id (userMessage_of clock w) <> aiMessageId (attempt_of clock w).
Proof.
  intros Hmono H. unfold userMessage_of, attempt_of in H. cbn in H.
  apply toString_inj in H.
  assert (Hle := Hmono (first_reading w) (S (S (first_reading w)))
                       ltac:(lia)).
  lia.
Qed.

Lemma handleSubmit_enter_run (w : World) :
  submit_rejected w = false ->
  exists w1,
    handleSubmit_enter clock w
    = Ok (Some (userMessage_of clock w, attachments w, attempt_of clock w)) w1
    /\ messages w1 = messages w ++ [userMessage_of clock w]
    /\ isLoading w1 = true
    /\ attachments w1 = []
    /\ ticks w1 = 4 + first_reading w.
Proof.
  intros Hg. unfold handleSubmit_enter. run_handlers. rewrite Hg.
  unfold userMessage_of, attempt_of, first_reading.
  destruct (id_truthy (activeChatId w)); cbn;
    eexists; (split; [reflexivity|]); cbn; repeat split.
Qed.

Lemma handleSubmit_run (remote : RemoteStream) (w : World) :
  clock_monotone clock ->
  submit_rejected w = false ->
  exists w',
    handleSubmit clock remote w = Ok tt w'
    /\ messages w'
       = messages w ++ [userMessage_of clock w]
         ++ ai_part clock w (delivered (chunks remote))
         ++ error_part clock w (ending remote)
    /\ isLoading w' = false.
Proof.
  intros Hmono Hg.
  assert (Hnew := ai_id_is_new w Hmono).
  unfold handleSubmit, handleSubmit_enter. run_handlers. rewrite Hg.
  unfold ai_part, error_part, error_message_of.
  unfold userMessage_of, attempt_of, first_reading in *.
  unfold sendMessageStream, handleSubmit_catch, handleSubmit_finally.
  destruct (id_truthy (activeChatId w)); cbn in Hnew |- *;
    unfold bind; rewrite sendMessageStream_call_run;
    (erewrite deliver_fresh;
      [| cbn; destruct (chatSession w); reflexivity
       | exact Hnew | reflexivity ]);
    run_handlers;
    destruct (delivered (chunks remote)), (ending remote),
             (chatSession w); cbn;
    eexists; (split; [reflexivity|]); cbn;
    rewrite <- ?app_assoc; split; reflexivity.
Qed.

Lemma handleSubmit_no_increment (remote : RemoteStream) (w : World) :
  submit_rejected w = false ->
  delivered (chunks remote) = [] ->
  exists w',
    handleSubmit clock remote w = Ok tt w'
    /\ messages w'
       = messages w ++ [userMessage_of clock w]
         ++ error_part clock w (ending remote)
    /\ isLoading w' = false.
Proof.
  intros Hg Hd.
  unfold handleSubmit, handleSubmit_enter. run_handlers. rewrite Hg.
  unfold error_part, error_message_of.
  unfold userMessage_of, attempt_of, first_reading in *.
  unfold sendMessageStream, handleSubmit_catch, handleSubmit_finally.
  destruct (id_truthy (activeChatId w)); cbn;
    unfold bind; rewrite sendMessageStream_call_run;
    rewrite (deliver_nothing _ _ _ Hd);
    run_handlers;
    destruct (ending remote), (chatSession w); cbn;
    eexists; (split; [reflexivity|]); cbn;
    rewrite <- ?app_assoc; split; reflexivity.
Qed.

End Submit.

Section SubmitClaims.

Variable clock : nat -> N.

(** C4.  While a send is in flight, and likewise when the trimmed input
    is empty and no attachment is pending, [handleSubmit] changes
    nothing: the timeline, the in-flight flag, the pending attachments,
    the conversation id and every other part of the state are as
    before, the clock is not read and no request reaches the remote
    endpoint. *)
Theorem handleSubmit_rejected_is_noop (remote : RemoteStream) (w : World) :
  isLoading w = true \/ (trim (inputText w) = [] /\ attachments w = []) ->
  handleSubmit clock remote w = Ok tt w
  /\ handleSubmit_enter clock w = Ok None w.
Proof.
  intros H.
  assert (Hg : submit_rejected w = true).
  { unfold submit_rejected. destruct H as [->|[-> ->]].
    - apply orb_true_r.
    - reflexivity. }
  unfold handleSubmit, handleSubmit_enter. run_handlers.
  rewrite Hg. split; reflexivity.
Qed.

(** C7 as amended.  Right after an accepted submit the timeline is the
    former one followed by the new User message only, with no AI
    placeholder, and chunks that carry no text leave it so.  With a clock
    that does not go backwards, the first non-empty increment then
    appends the AI placeholder, carrying that increment.  A stream that
    delivers no non-empty increment never puts the placeholder in the
    timeline: when it ends well the User message stays last and no AI
    message is added; when it fails the only message added after the
    User message is the AI message with the fixed error notice. *)
Theorem placeholder_appended_by_first_increment (w : World) :
  submit_rejected w = false ->
  exists w1,
    handleSubmit_enter clock w
    = Ok (Some (userMessage_of clock w, attachments w, attempt_of clock w)) w1
    /\ sender (userMessage_of clock w) = User
    /\ messages w1 = messages w ++ [userMessage_of clock w]
    /\ (forall cs, delivered cs = [] ->
          deliver onChunk cs (attempt_of clock w) w1
          = Ok (attempt_of clock w) w1)
    /\ (clock_monotone clock ->
        forall chunk, chunk <> [] ->
          exists att' w2,
            deliver onChunk [Some chunk] (attempt_of clock w) w1 = Ok att' w2
            /\ messages w2
               = messages w
                 ++ [userMessage_of clock w;
                     with_text (aiMessagePlaceholder (attempt_of clock w))
                               chunk]
            /\ sender (aiMessagePlaceholder (attempt_of clock w)) = AI)
    /\ (forall remote,
          delivered (chunks remote) = [] ->
          exists w',
            handleSubmit clock remote w = Ok tt w'
            /\ (ending remote = Resolves ->
                messages w' = messages w ++ [userMessage_of clock w])
            /\ (ending remote = Rejects ->
                messages w'
                = messages w
                  ++ [userMessage_of clock w; error_message_of clock w]
                /\ sender (error_message_of clock w) = AI
                /\ text (error_message_of clock w) = ERROR_NOTICE)).
Proof.
  intros Hg.
  destruct (handleSubmit_enter_run clock w Hg) as (w1 & H1 & H2 & _).
  exists w1. split; [exact H1|]. split; [reflexivity|].
  split; [exact H2|]. split; [|split].
  - intros cs Hd. apply deliver_nothing. exact Hd.
  - intros Hmono chunk Hc.
    rewrite (deliver_fresh [Some chunk] (attempt_of clock w) w1
               (messages w) (userMessage_of clock w) H2
               (ai_id_is_new clock w Hmono) eq_refl).
    destruct chunk as [|c t]; [congruence|].
    eexists. eexists. split; [reflexivity|]. cbn.
    rewrite H2, <- app_assoc, app_nil_r. split; reflexivity.
  - intros remote Hd.
    destruct (handleSubmit_no_increment clock remote w Hg Hd)
      as (w' & R1 & R2 & _).
    exists w'. split; [exact R1|]. split; intros He; rewrite He in R2.
    + rewrite R2. reflexivity.
    + rewrite R2. repeat split.
Qed.

(** C1 as amended.  With a clock that does not go backwards, for every
    accepted submit whose stream ends well: when at least one non-empty
    increment arrives, the timeline grows by exactly 2, the new User
    message then one AI message whose text is the concatenation of the
    increments in arrival order, however many they are; when none
    arrives, the timeline grows by exactly 1, the User message.  The
    in-flight flag is false afterwards. *)
Theorem successful_submit_timeline (remote : RemoteStream) (w : World) :
  clock_monotone clock ->
  submit_rejected w = false ->
  ending remote = Resolves ->
  exists w',
    handleSubmit clock remote w = Ok tt w'
    /\ isLoading w' = false
    /\ (delivered (chunks remote) <> [] ->
          exists ai,
            messages w' = messages w ++ [userMessage_of clock w; ai]
            /\ sender (userMessage_of clock w) = User
            /\ sender ai = AI
            /\ text ai = concat (delivered (chunks remote))
            /\ length (messages w') = length (messages w) + 2)
    /\ (delivered (chunks remote) = [] ->
          messages w' = messages w ++ [userMessage_of clock w]
          /\ length (messages w') = length (messages w) + 1).
Proof.
  intros Hmono Hg He.
  destruct (handleSubmit_run clock remote w Hmono Hg) as (w' & R1 & R2 & R3).
  exists w'. split; [exact R1|]. split; [exact R3|].
  rewrite He in R2. unfold error_part in R2. split.
  - intros Hd. destruct (delivered (chunks remote)) as [|c cs] eqn:E;
      [congruence|].
    eexists. split; [rewrite R2; reflexivity|].
    rewrite R2. repeat split. rewrite !length_app. simpl. lia.
  - intros Hd. rewrite Hd in R2. simpl in R2. rewrite R2.
    split; [reflexivity|]. rewrite length_app. simpl. lia.
Qed.

(** C2 as amended.  With a clock that does not go backwards, for every
    accepted submit whose stream fails: the timeline afterwards is the
    former one, the new User message, the AI placeholder with the text
    delivered so far when at least one non-empty increment arrived and
    no placeholder when none did, and then exactly one more AI message
    carrying the fixed error notice; the in-flight flag is false.  The
    id of the error notice differs from the placeholder's whenever the
    clock reading at the failure is not the one after the placeholder's. *)
Theorem failed_submit_timeline (remote : RemoteStream) (w : World) :
  clock_monotone clock ->
  submit_rejected w = false ->
  ending remote = Rejects ->
  exists w',
    handleSubmit clock remote w = Ok tt w'
    /\ messages w'
       = messages w ++ [userMessage_of clock w]
         ++ ai_part clock w (delivered (chunks remote))
         ++ [error_message_of clock w]
    /\ text (error_message_of clock w) = ERROR_NOTICE
    /\ sender (error_message_of clock w) = AI
    /\ isLoading w' = false
    /\ (clock (4 + first_reading w) <> (clock (2 + first_reading w) + 1)%N ->
        id (error_message_of clock w) <> aiMessageId (attempt_of clock w)).
Proof.
  intros Hmono Hg He.
  destruct (handleSubmit_run clock remote w Hmono Hg) as (w' & R1 & R2 & R3).
  exists w'. rewrite He in R2. repeat split; try assumption.
  intros Hne Heq. apply Hne. cbn in Heq. now apply toString_inj in Heq.
Qed.

Lemma saveCurrentSession_total (w : World) :
  exists w', saveCurrentSession clock w = Ok tt w'
             /\ messages w' = messages w.
Proof.
  unfold saveCurrentSession. run_handlers.
  destruct (messages w) as [|m0 rest] eqn:E; [eauto|].
  destruct (activeChatId w) as [[|c i]|]; cbn;
    eexists; (split; [reflexivity|]); cbn; exact E.
Qed.

Lemma loadHistoryItem_run (item : ChatHistoryItem) (w : World) :
  exists w1, loadHistoryItem clock item w = Ok tt w1
             /\ messages w1 = item_messages item
             /\ activeChatId w1 = Some (item_id item).
Proof.
  unfold loadHistoryItem, bind, get.
  destruct ((0 <? length (messages w))%nat
            && negb (opt_streq (activeChatId w) (item_id item))).
  - destruct (saveCurrentSession_total w) as (w' & -> & _).
    eexists. split; [reflexivity|]. split; reflexivity.
  - eexists. split; [reflexivity|]. split; reflexivity.
Qed.

(** C3 as amended.  An increment of an abandoned stream is not
    ignored.  After another conversation was loaded from the history,
    with a non-empty timeline whose last message does not have the id
    of the abandoned attempt, the increment leaves the messages of the
    loaded timeline as they are and appends to them one AI message, the
    attempt's placeholder carrying the text the attempt accumulated. *)
Theorem stale_increment_appends (att : Attempt) (chunk : jsstring)
    (item : ChatHistoryItem) (w : World)
    (pre : list Message) (m : Message) :
  item_messages item = pre ++ [m] ->
  id m <> aiMessageId att ->
  exists w1 att' w2,
    loadHistoryItem clock item w = Ok tt w1
    /\ messages w1 = item_messages item
    /\ onChunk att chunk w1 = Ok att' w2
    /\ messages w2
       = item_messages item
         ++ [with_text (aiMessagePlaceholder att) (fullResponse att ++ chunk)]
    /\ activeChatId w2 = Some (item_id item).
Proof.
  intros Hm Hid.
  destruct (loadHistoryItem_run item w) as (w1 & L1 & L2 & L3).
  exists w1. eexists. eexists. split; [exact L1|]. split; [exact L2|].
  rewrite Hm in L2.
  rewrite (onChunk_appends att chunk w1 pre m L2 Hid).
  split; [reflexivity|]. cbn. rewrite L2, Hm. split; [reflexivity | exact L3].
Qed.

End SubmitClaims.

(** ** The claims at sample inputs *)

Lemma clk_monotone : clock_monotone Sample.clk.
Proof. intros i j H. unfold Sample.clk. lia. Qed.

Lemma slow_clk_monotone : clock_monotone Sample.slow_clk.
Proof.
  intros i j H. unfold Sample.slow_clk.
  assert (i / 2 <= j / 2) by (apply Nat.Div0.div_le_mono; exact H). lia.
Qed.

Lemma handleSubmit_rejected_is_noop_witness :
  handleSubmit Sample.clk SampleRuns.hello Sample.w_loading
  = Ok tt Sample.w_loading
  /\ handleSubmit Sample.clk SampleRuns.hello Sample.w_blank
     = Ok tt Sample.w_blank.
Proof.
  split.
  - apply (handleSubmit_rejected_is_noop Sample.clk SampleRuns.hello
             Sample.w_loading).
    left. reflexivity.
  - apply (handleSubmit_rejected_is_noop Sample.clk SampleRuns.hello
             Sample.w_blank).
    right. split; reflexivity.
Defined.

Lemma placeholder_appended_by_first_increment_witness :
  exists w1,
    handleSubmit_enter Sample.clk Sample.w_hi
    = Ok (Some (userMessage_of Sample.clk Sample.w_hi, [],
                attempt_of Sample.clk Sample.w_hi)) w1
    /\ messages w1 = [userMessage_of Sample.clk Sample.w_hi]
    /\ (exists att' w2,
          deliver onChunk [Some (js "Hel")] (attempt_of Sample.clk Sample.w_hi)
                  w1 = Ok att' w2
          /\ length (messages w2) = 2)
    /\ (exists w',
          handleSubmit Sample.clk SampleRuns.silent Sample.w_hi = Ok tt w'
          /\ messages w' = [userMessage_of Sample.clk Sample.w_hi]).
Proof.
  destruct (placeholder_appended_by_first_increment Sample.clk Sample.w_hi
              eq_refl) as (w1 & H1 & _ & H2 & _ & H3 & H4).
  exists w1. split; [exact H1|]. split; [exact H2|]. split.
  - assert (Hc : js "Hel" <> []) by discriminate.
    destruct (H3 clk_monotone (js "Hel") Hc) as (att' & w2 & D1 & D2 & _).
    exists att', w2. split; [exact D1|]. rewrite D2. reflexivity.
  - destruct (H4 SampleRuns.silent eq_refl) as (w' & R1 & R2 & _).
    exists w'. split; [exact R1 | exact (R2 eq_refl)].
Defined.

Lemma successful_submit_timeline_witness :
  exists w',
    handleSubmit Sample.clk SampleRuns.hello Sample.w_hi = Ok tt w'
    /\ isLoading w' = false.
Proof.
  destruct (successful_submit_timeline Sample.clk SampleRuns.hello Sample.w_hi
              clk_monotone eq_refl eq_refl) as (w' & H1 & H2 & _).
  exists w'. split; [exact H1 | exact H2].
Defined.

Lemma failed_submit_timeline_witness :
  exists w',
    handleSubmit Sample.clk SampleRuns.broken Sample.w_hi = Ok tt w'
    /\ isLoading w' = false.
Proof.
  destruct (failed_submit_timeline Sample.clk SampleRuns.broken Sample.w_hi
              clk_monotone eq_refl eq_refl) as (w' & H1 & _ & _ & _ & H2 & _).
  exists w'. split; [exact H1 | exact H2].
Defined.

Lemma stale_increment_appends_witness :
  exists w1 att' w2,
    loadHistoryItem Sample.clk Sample.old_item Sample.w_hi = Ok tt w1
    /\ onChunk (attempt_of Sample.clk Sample.w_hi) (js "x") w1 = Ok att' w2
    /\ length (messages w2) = 2.
Proof.
  assert (Hid : id Sample.old_message
                <> aiMessageId (attempt_of Sample.clk Sample.w_hi))
    by (vm_compute; discriminate).
  destruct (stale_increment_appends Sample.clk
              (attempt_of Sample.clk Sample.w_hi) (js "x") Sample.old_item
              Sample.w_hi [] Sample.old_message eq_refl Hid)
    as (w1 & att' & w2 & H1 & _ & H3 & H4 & _).
  exists w1, att', w2. split; [exact H1|]. split; [exact H3|].
  rewrite H4. reflexivity.
Defined.

Lemma fileToBase64_strips_prefix_witness :
  Codec.fileToBase64
    (Codec.OnLoad (Codec.ResultString
       (Codec.dataURL (js "image/png") (js "iVBORw0KGgo="))))
  = Codec.Resolved (Some (js "iVBORw0KGgo=")).
Proof.
  apply (fileToBase64_strips_prefix (js "image/png") (js "iVBORw0KGgo=")).
  - vm_compute. intuition discriminate.
  - reflexivity.
Defined.

Lemma generateSuggestions_never_throws_witness :
  Suggestions.generateSuggestions SampleRuns.no_parse
    (Suggestions.GenResponds (Some (js "not json")))
  = Suggestions.Returns (Suggestions.Literal Suggestions.FALLBACK).
Proof.
  apply (proj1 (generateSuggestions_never_throws unit SampleRuns.no_parse
                  (Suggestions.GenResponds (Some (js "not json"))))).
  right. exists (ErrorMsg (js "SyntaxError")). reflexivity.
Defined.

(** The example of the specification: "hi" answered by "Hel", "lo!". *)
Example submit_hi_hello :
  exists w',
    handleSubmit Sample.clk SampleRuns.hello Sample.w_hi = Ok tt w'
    /\ map (fun m => (sender m, text m)) (messages w')
       = [(User, js "hi"); (AI, js "Hello!")]
    /\ isLoading w' = false.
Proof. eexists. split; [vm_compute; reflexivity|]. split; reflexivity. Qed.

(** C1 as stated fails for a stream that ends well without any
    increment: the timeline grows by one message, not two. *)
Lemma submit_without_increment_grows_by_one :
  exists w',
    handleSubmit Sample.clk SampleRuns.silent Sample.w_hi = Ok tt w'
    /\ length (messages w') = length (messages Sample.w_hi) + 1
    /\ length (messages w') <> length (messages Sample.w_hi) + 2.
Proof.
  eexists. split; [vm_compute; reflexivity|]. split; [reflexivity|].
  simpl. lia.
Qed.

(** C2 as stated fails for a stream that fails before its first
    increment: the timeline holds the User message and the error notice,
    and no message with the id of the placeholder. *)
Lemma failure_before_first_increment_has_no_placeholder :
  exists w',
    handleSubmit Sample.clk SampleRuns.refused Sample.w_hi = Ok tt w'
    /\ messages w' = [userMessage_of Sample.clk Sample.w_hi;
                      error_message_of Sample.clk Sample.w_hi]
    /\ ~ exists m, In m (messages w')
                   /\ id m = aiMessageId (attempt_of Sample.clk Sample.w_hi).
Proof.
  eexists. split; [vm_compute; reflexivity|]. split; [reflexivity|].
  intros (m & [<-|[<-|[]]] & H); vm_compute in H; discriminate.
Qed.

(** When the failure comes one millisecond after the placeholder was
    allocated, the error notice gets the very id of the placeholder. *)
Example error_notice_id_can_collide :
  exists w',
    handleSubmit Sample.slow_clk SampleRuns.broken Sample.w_hi = Ok tt w'
    /\ map id (messages w') = [js "1000"; js "1002"; js "1002"].
Proof. eexists. split; [vm_compute; reflexivity|]. reflexivity. Qed.

(** C3 as stated fails: a send is started, another conversation is loaded
    from the history, and the next increment of the abandoned stream adds
    a message to the loaded conversation. *)
Lemma stale_increment_reaches_loaded_conversation :
  exists um atts att w1 w2 att' w3,
    handleSubmit_enter Sample.clk Sample.w_with_history
    = Ok (Some (um, atts, att)) w1
    /\ loadHistoryItem Sample.clk Sample.old_item w1 = Ok tt w2
    /\ messages w2 = [Sample.old_message]
    /\ activeChatId w2 = Some (item_id Sample.old_item)
    /\ onChunk att (js "x") w2 = Ok att' w3
    /\ map (fun m => (sender m, text m)) (messages w3)
       = [(User, js "what is a monad"); (AI, js "x")]
    /\ messages w3 <> messages w2.
Proof.
  do 7 eexists. split; [vm_compute; reflexivity|].
  split; [vm_compute; reflexivity|]. split; [reflexivity|].
  split; [reflexivity|]. split; [vm_compute; reflexivity|].
  split; [reflexivity|]. discriminate.
Qed.

(** After "new chat" the timeline is empty, and the next increment of
    the abandoned stream makes the updater throw. *)
Example stale_increment_after_new_chat :
  exists um atts att w1 w2,
    handleSubmit_enter Sample.clk Sample.w_hi = Ok (Some (um, atts, att)) w1
    /\ handleNewChat Sample.clk w1 = Ok tt w2
    /\ messages w2 = []
    /\ onChunk att (js "x") w2 = Uncaught TypeError.
Proof.
  do 5 eexists. split; [vm_compute; reflexivity|].
  split; [vm_compute; reflexivity|]. split; reflexivity.
Qed.

(** C7 as stated fails for a stream that fails before any increment: it
    delivers no non-empty increment, yet the submit leaves an AI message
    in the timeline, the error notice. *)
Lemma refused_stream_adds_an_AI_message :
  exists w' m,
    handleSubmit Sample.clk SampleRuns.refused Sample.w_hi = Ok tt w'
    /\ delivered (chunks SampleRuns.refused) = []
    /\ In m (messages w')
    /\ ~ In m (messages Sample.w_hi)
    /\ sender m = AI.
Proof.
  eexists. exists (error_message_of Sample.clk Sample.w_hi).
  split; [vm_compute; reflexivity|]. split; [reflexivity|].
  split; [right; left; reflexivity|]. split; [|reflexivity].
  intros [].
Qed.

(** With a clock that steps back so that the placeholder id, one more
    than a later reading, lands on the id of the User message, the first
    increment finds its id on the User message and overwrites its text
    instead of appending. *)
Example first_increment_overwrites_when_clock_steps_back :
  exists w',
    handleSubmit MoreSamples.back_clk SampleRuns.hello Sample.w_hi = Ok tt w'
    /\ map (fun m => (sender m, text m)) (messages w')
       = [(User, js "Hello!")].
Proof. eexists. split; [vm_compute; reflexivity|]. reflexivity. Qed.

(* ===================================================================== *)
(** * Further properties of the engine *)
(* ===================================================================== *)

Arguments trim s : simpl never.

(** ** What one accepted submit does to every part of the state *)

Lemma trimStart_blank (s : jsstring) :
  forallb isWhiteSpace s = true -> trimStart s = [].
Proof.
  induction s as [|c s IH]; simpl; [reflexivity|].
  intros H. apply andb_true_iff in H. destruct H as [-> H]. auto.
Qed.

Lemma trim_blank (s : jsstring) :
  forallb isWhiteSpace s = true -> trim s = [].
Proof.
  intros H. unfold trim, trimEnd. rewrite (trimStart_blank s H). reflexivity.
Qed.

Lemma handleSubmit_frame (clock : nat -> N) (remote : RemoteStream)
    (w : World) :
  clock_monotone clock ->
  submit_rejected w = false ->
  exists w',
    handleSubmit clock remote w = Ok tt w'
    /\ messages w'
       = messages w ++ [userMessage_of clock w]
         ++ ai_part clock w (delivered (chunks remote))
         ++ error_part clock w (ending remote)
    /\ isLoading w' = false
    /\ inputText w' = []
    /\ attachments w' = []
    /\ hasStarted w' = true
    /\ history w' = history w
    /\ activeChatId w'
       = (if id_truthy (activeChatId w) then activeChatId w
          else Some (toString (clock (ticks w))))
    /\ chatSession w'
       = (match chatSession w with
          | Some c => Some c
          | None => Some (session_for false)
          end)
    /\ sent w'
       = sent w ++ [messageContent (trim (inputText w)) (attachments w)].
Proof.
  intros Hmono Hg.
  assert (Hnew := ai_id_is_new clock w Hmono).
  unfold handleSubmit, handleSubmit_enter. run_handlers. rewrite Hg.
  unfold ai_part, error_part, error_message_of.
  unfold userMessage_of, attempt_of, first_reading in *.
  unfold sendMessageStream, handleSubmit_catch, handleSubmit_finally.
  destruct (id_truthy (activeChatId w)); cbn in Hnew |- *;
    unfold bind; rewrite sendMessageStream_call_run;
    (erewrite deliver_fresh;
      [| cbn; destruct (chatSession w); reflexivity
       | exact Hnew | reflexivity ]);
    run_handlers;
    destruct (delivered (chunks remote)), (ending remote),
             (chatSession w) eqn:Ecs; cbn;
    eexists; (split; [reflexivity|]); cbn;
    rewrite ?Ecs, <- ?app_assoc; repeat split; reflexivity.
Qed.

(** On a timeline that is not empty an increment never throws, and it
    leaves the timeline not empty. *)
Lemma onChunk_total (att : Attempt) (chunk : jsstring) (w : World) :
  messages w <> [] ->
  exists att' ms,
    onChunk att chunk w = Ok att' (upd_messages (fun _ => ms) w)
    /\ ms <> [].
Proof.
  intros Hne.
  destruct (exists_last Hne) as (pre & m & Hm).
  destruct (streq (id m) (aiMessageId att)) eqn:S.
  - apply streq_true_iff in S.
    rewrite (onChunk_replaces att chunk w pre m Hm S).
    eexists. eexists. split; [reflexivity|].
    intros E. apply app_eq_nil in E. destruct E; discriminate.
  - apply streq_false_iff in S.
    rewrite (onChunk_appends att chunk w pre m Hm S).
    eexists. eexists. split; [reflexivity|].
    intros E. apply app_eq_nil in E. destruct E; discriminate.
Qed.

Lemma deliver_total (cs : list (option jsstring)) :
  forall (att : Attempt) (w : World),
    messages w <> [] ->
    exists att' ms,
      deliver onChunk cs att w = Ok att' (upd_messages (fun _ => ms) w)
      /\ ms <> [].
Proof.
  induction cs as [|[[|c t]|] cs IH]; intros att w Hne; simpl.
  - exists att, (messages w). rewrite upd_messages_same. split; auto.
  - apply IH. exact Hne.
  - destruct (onChunk_total att (c :: t) w Hne) as (a1 & ms1 & E1 & N1).
    unfold bind. rewrite E1.
    destruct (IH a1 (upd_messages (fun _ => ms1) w) N1)
      as (a2 & ms2 & E2 & N2).
    rewrite E2. exists a2, ms2. split; [reflexivity | exact N2].
  - apply IH. exact Hne.
Qed.

(** What an accepted submit does to the parts of the state other than
    the timeline, whatever the clock does. *)
Lemma handleSubmit_fields (clock : nat -> N) (remote : RemoteStream)
    (w : World) :
  submit_rejected w = false ->
  exists w',
    handleSubmit clock remote w = Ok tt w'
    /\ messages w' <> []
    /\ isLoading w' = false
    /\ inputText w' = []
    /\ attachments w' = []
    /\ hasStarted w' = true
    /\ history w' = history w
    /\ activeChatId w'
       = (if id_truthy (activeChatId w) then activeChatId w
          else Some (toString (clock (ticks w))))
    /\ chatSession w'
       = (match chatSession w with
          | Some c => Some c
          | None => Some (session_for false)
          end)
    /\ sent w'
       = sent w ++ [messageContent (trim (inputText w)) (attachments w)].
Proof.
  intros Hg.
  unfold handleSubmit, handleSubmit_enter. run_handlers. rewrite Hg.
  unfold sendMessageStream, handleSubmit_catch, handleSubmit_finally.
  destruct (id_truthy (activeChatId w)); cbn;
    unfold bind; rewrite sendMessageStream_call_run;
    (match goal with
     | |- context [deliver onChunk ?cs ?a ?W] =>
         let N := fresh "N" in
         assert (N : messages W <> [])
           by (cbn; destruct (chatSession w); cbn;
               intros E; apply app_eq_nil in E; destruct E; discriminate);
         destruct (deliver_total cs a W N) as (att' & ms & -> & Hms)
     end);
    run_handlers;
    destruct (ending remote), (chatSession w) eqn:Ecs; cbn;
    eexists; (split; [reflexivity|]); cbn;
    rewrite ?Ecs; repeat split; try reflexivity;
    try exact Hms;
    intros E; apply app_eq_nil in E; destruct E; discriminate.
Qed.

Section MoreSubmit.

Variable clock : nat -> N.

(** The send button is enabled exactly when [handleSubmit] would act:
    with the button disabled a submit, which the Enter key can still
    trigger, returns the state untouched; with it enabled the submit is
    accepted. *)
Theorem send_button_matches_guard (remote : RemoteStream) (w : World) :
  isSendActive w = negb (submit_rejected w)
  /\ (isSendActive w = false -> handleSubmit clock remote w = Ok tt w)
  /\ (isSendActive w = true ->
      exists r w1, handleSubmit_enter clock w = Ok (Some r) w1).
Proof.
  assert (E : isSendActive w = negb (submit_rejected w)).
  { unfold isSendActive, submit_rejected.
    destruct (truthy (trim (inputText w))), (attachments w), (isLoading w);
      reflexivity. }
  split; [exact E|]. split; intros H; rewrite E in H.
  - unfold handleSubmit, handleSubmit_enter. run_handlers.
    destruct (submit_rejected w); [reflexivity | discriminate].
  - destruct (submit_rejected w) eqn:G; [discriminate|].
    destruct (handleSubmit_enter_run clock w G) as (w1 & H1 & _).
    eauto.
Qed.

(** An input made of white space only, with no attachment pending, is
    not sent: the submit leaves the state untouched. *)
Theorem blank_input_is_not_sent (remote : RemoteStream) (w : World) :
  forallb isWhiteSpace (inputText w) = true ->
  attachments w = [] ->
  handleSubmit clock remote w = Ok tt w /\ isSendActive w = false.
Proof.
  intros Hb Ha.
  assert (G : submit_rejected w = true).
  { unfold submit_rejected. now rewrite (trim_blank _ Hb), Ha. }
  split.
  - unfold handleSubmit, handleSubmit_enter. run_handlers. now rewrite G.
  - unfold isSendActive. now rewrite (trim_blank _ Hb), Ha.
Qed.

(** An accepted submit sends exactly one request, built from the trimmed
    input and the pending attachments, then leaves the input box and the
    pending attachments empty, marks the conversation as started and
    does not touch the history collection, whatever the clock does. *)
Theorem accepted_submit_sends_one_request (remote : RemoteStream)
    (w : World) :
  submit_rejected w = false ->
  exists w',
    handleSubmit clock remote w = Ok tt w'
    /\ sent w'
       = sent w ++ [messageContent (trim (inputText w)) (attachments w)]
    /\ inputText w' = []
    /\ attachments w' = []
    /\ hasStarted w' = true
    /\ history w' = history w.
Proof.
  intros Hg.
  destruct (handleSubmit_fields clock remote w Hg)
    as (w' & H & _ & _ & Hi & Ha & Hs & Hh & _ & _ & Hsent).
  exists w'. repeat split; assumption.
Qed.

(** Attachments sent with a blank input: the submit is accepted, the
    user message has an empty text and carries the attachments, and the
    request is the sequence of their inline parts with no text part,
    whatever the clock does; with a clock that does not go backwards the
    user message is appended to the timeline as it is. *)
Theorem attachments_only_submit (remote : RemoteStream) (w : World)
    (a : Attachment) (rest : list Attachment) :
  isLoading w = false ->
  forallb isWhiteSpace (inputText w) = true ->
  attachments w = a :: rest ->
  exists w',
    handleSubmit clock remote w = Ok tt w'
    /\ text (userMessage_of clock w) = []
    /\ msg_attachments (userMessage_of clock w) = Some (a :: rest)
    /\ sent w'
       = sent w
         ++ [Parts (map (fun att => InlineData (mimeType att) (data att))
                        (a :: rest))]
    /\ (clock_monotone clock ->
        exists others,
          messages w' = messages w ++ userMessage_of clock w :: others).
Proof.
  intros Hl Hb Ha.
  assert (G : submit_rejected w = false).
  { unfold submit_rejected. now rewrite Ha, Hl, (trim_blank _ Hb). }
  destruct (handleSubmit_fields clock remote w G)
    as (w' & H & _ & _ & _ & _ & _ & _ & _ & _ & Hsent).
  exists w'. split; [exact H|].
  split; [unfold userMessage_of; cbn [text]; apply (trim_blank _ Hb)|].
  split; [unfold userMessage_of; cbn [msg_attachments]; now rewrite Ha|].
  split.
  - rewrite Hsent, Ha, (trim_blank _ Hb). unfold messageContent.
    cbn [length Nat.ltb Nat.leb truthy]. now rewrite push_attachments_map.
  - intros Hmono.
    destruct (handleSubmit_frame clock remote w Hmono G)
      as (w2 & H2 & Hm & _).
    rewrite H in H2. injection H2 as <-.
    eexists. rewrite Hm. reflexivity.
Qed.

(** The conversation id is allocated once: an accepted submit keeps a
    conversation id that is set and otherwise sets it to the first clock
    reading it takes, printed in decimal; afterwards the id is set. *)
Theorem submit_allocates_conversation_id (remote : RemoteStream)
    (w : World) :
  submit_rejected w = false ->
  exists w',
    handleSubmit clock remote w = Ok tt w'
    /\ id_truthy (activeChatId w') = true
    /\ (id_truthy (activeChatId w) = true -> activeChatId w' = activeChatId w)
    /\ (id_truthy (activeChatId w) = false ->
        activeChatId w' = Some (toString (clock (ticks w)))).
Proof.
  intros Hg.
  destruct (handleSubmit_fields clock remote w Hg)
    as (w' & H & _ & _ & _ & _ & _ & _ & Hid & _).
  exists w'. split; [exact H|]. rewrite Hid.
  destruct (id_truthy (activeChatId w)) eqn:E.
  - repeat split; [exact E | discriminate].
  - split; [apply toString_truthy|]. split; [discriminate | reflexivity].
Qed.

Lemma handleSubmit_enter_keeps_id (w : World) :
  submit_rejected w = false ->
  id_truthy (activeChatId w) = true ->
  exists r w1, handleSubmit_enter clock w = Ok (Some r) w1
               /\ activeChatId w1 = activeChatId w.
Proof.
  intros Hg T. unfold handleSubmit_enter. run_handlers. rewrite Hg.
  destruct (activeChatId w) as [[|c i]|] eqn:E; try discriminate.
  cbn. eexists. eexists. split; [reflexivity | exact E].
Qed.

(** After an accepted submit, whether the stream ended well or failed,
    the engine is ready again: typing any text that is not blank enables
    the button and the next submit is accepted, under the same
    conversation id. *)
Theorem ready_after_submit (remote : RemoteStream) (w : World) :
  submit_rejected w = false ->
  exists w1,
    handleSubmit clock remote w = Ok tt w1
    /\ forall s, trim s <> [] ->
         exists w2 r w3,
           handleInputChange s w1 = Ok tt w2
           /\ isSendActive w2 = true
           /\ handleSubmit_enter clock w2 = Ok (Some r) w3
           /\ activeChatId w3 = activeChatId w1.
Proof.
  intros Hg.
  destruct (handleSubmit_fields clock remote w Hg)
    as (w1 & H & _ & Hl & _ & _ & _ & _ & Hid & _).
  exists w1. split; [exact H|]. intros s Hs.
  assert (T : id_truthy (activeChatId w1) = true).
  { rewrite Hid. destruct (id_truthy (activeChatId w)) eqn:E;
      [exact E | apply toString_truthy]. }
  assert (G : submit_rejected (upd_inputText s w1) = false).
  { unfold submit_rejected. cbn. rewrite Hl.
    destruct (trim s); [congruence | reflexivity]. }
  destruct (handleSubmit_enter_keeps_id (upd_inputText s w1) G T)
    as (r & w3 & H3 & H4).
  exists (upd_inputText s w1), r, w3. split; [reflexivity|]. split.
  - unfold isSendActive. cbn. rewrite Hl.
    destruct (trim s); [congruence | reflexivity].
  - split; [exact H3 | exact H4].
Qed.

End MoreSubmit.

(** ** The session handle *)

(** A send finds or makes a session: a session that exists is used as it
    is, and when none exists one is created with the default
    configuration, without a thinking budget, whatever the thinking
    toggle of the application says.  No other part of the state changes
    but the log of requests, which gets the one request. *)
Theorem send_creates_default_session (txt : jsstring)
    (atts : list Attachment) (w : World) :
  exists w',
    sendMessageStream_call txt atts w
    = Ok (Some (messageContent txt atts)) w'
    /\ chatSession w'
       = (match chatSession w with
          | Some c => Some c
          | None => Some (mkChat (js "gemini-2.5-flash") None)
          end)
    /\ sent w' = sent w ++ [messageContent txt atts]
    /\ messages w' = messages w
    /\ inputText w' = inputText w
    /\ attachments w' = attachments w
    /\ isLoading w' = isLoading w
    /\ useThinking w' = useThinking w
    /\ suggestions w' = suggestions w
    /\ history w' = history w
    /\ activeChatId w' = activeChatId w
    /\ hasStarted w' = hasStarted w
    /\ ticks w' = ticks w.
Proof.
  eexists. split; [apply sendMessageStream_call_run|].
  destruct (chatSession w) eqn:E; cbn; rewrite ?E; repeat split.
Qed.

(** ** Streaming *)

(** Once the message of the attempt is the last one of the timeline,
    any further chunks keep the timeline at its length: the messages
    before the last are untouched, and the last keeps its id, sender and
    timestamp while its text becomes the accumulated response, when at
    least one chunk carried text, and stays as it was otherwise. *)
Theorem streaming_replaces_in_place (cs : list (option jsstring))
    (att : Attempt) (w : World) (pre : list Message) (m : Message) :
  messages w = pre ++ [m] ->
  id m = aiMessageId att ->
  exists att' w' m',
    deliver onChunk cs att w = Ok att' w'
    /\ messages w' = pre ++ [m']
    /\ id m' = id m /\ sender m' = sender m /\ timestamp m' = timestamp m
    /\ fullResponse att' = fullResponse att ++ concat (delivered cs)
    /\ (delivered cs <> [] -> text m' = fullResponse att')
    /\ (delivered cs = [] -> m' = m).
Proof.
  intros Hm Hid.
  rewrite (deliver_continues cs att w pre m Hm Hid).
  destruct (delivered cs) as [|t ts] eqn:E.
  - exists (mkAttempt (aiMessageId att) (aiMessagePlaceholder att)
                      (fullResponse att ++ concat [])), w, m.
    repeat split; try assumption. congruence.
  - eexists. eexists. eexists. split; [reflexivity|]. cbn.
    repeat split. congruence.
Qed.

(** [sendMessageStream] hands to its callback the texts of the chunks
    that have a non-empty text, each once and in the order of arrival,
    and skips the chunks without text; of the state it changes only the
    session handle and the log of requests. *)
Theorem callback_gets_nonempty_texts (txt : jsstring)
    (atts : list Attachment) (remote : RemoteStream) (w : World) :
  exists w',
    sendMessageStream txt atts record_chunk [] remote w
    = Ok (ending remote, filter truthy (chunk_texts (chunks remote))) w'
    /\ messages w' = messages w
    /\ sent w' = sent w ++ [messageContent txt atts].
Proof.
  assert (D : forall cs seen w0,
             deliver record_chunk cs seen w0
             = Ok (seen ++ filter truthy (chunk_texts cs)) w0).
  { induction cs as [|[[|c t]|] cs IH]; intros seen w0; simpl.
    - now rewrite app_nil_r.
    - apply IH.
    - unfold bind, record_chunk, ret. rewrite IH, <- app_assoc. reflexivity.
    - apply IH. }
  unfold sendMessageStream, bind. rewrite sendMessageStream_call_run, D.
  eexists. split; [reflexivity|]. destruct (chatSession w); split; reflexivity.
Qed.

Section StreamingOutcomes.

Variable clock : nat -> N.

(** The timeline is append-only across a submit: with a clock that does
    not go backwards, an accepted submit keeps every earlier message
    where and as it was and adds after them the user message followed by
    at most two AI messages. *)
Theorem submit_is_append_only (remote : RemoteStream) (w : World) :
  clock_monotone clock ->
  submit_rejected w = false ->
  exists w' added,
    handleSubmit clock remote w = Ok tt w'
    /\ messages w' = messages w ++ userMessage_of clock w :: added
    /\ length added <= 2
    /\ Forall (fun m => sender m = AI) added.
Proof.
  intros Hmono Hg.
  destruct (handleSubmit_run clock remote w Hmono Hg) as (w' & H & Hm & _).
  exists w', (ai_part clock w (delivered (chunks remote))
              ++ error_part clock w (ending remote)).
  split; [exact H|]. split; [exact Hm|].
  destruct (delivered (chunks remote)), (ending remote); cbn;
    split; try lia; repeat constructor.
Qed.

(** Message ids are drawn from the clock and can repeat: when a stream
    fails after at least one increment and the failure is read from the
    clock exactly one unit after the reading the placeholder id was made
    from, the error notice gets the id of the placeholder. *)
Theorem error_notice_can_share_placeholder_id (remote : RemoteStream)
    (w : World) :
  clock_monotone clock ->
  submit_rejected w = false ->
  ending remote = Rejects ->
  delivered (chunks remote) <> [] ->
  clock (4 + first_reading w) = (clock (2 + first_reading w) + 1)%N ->
  exists w' ai err,
    handleSubmit clock remote w = Ok tt w'
    /\ messages w' = messages w ++ [userMessage_of clock w; ai; err]
    /\ text err = ERROR_NOTICE
    /\ id ai = id err.
Proof.
  intros Hmono Hg He Hd Hc.
  destruct (handleSubmit_run clock remote w Hmono Hg) as (w' & H & Hm & _).
  rewrite He in Hm.
  destruct (delivered (chunks remote)) as [|t ts]; [congruence|].
  exists w'. eexists. eexists. split; [exact H|]. split; [exact Hm|].
  split; [reflexivity|].
  change (toString (clock (2 + first_reading w) + 1)%N
          = toString (clock (4 + first_reading w))).
  now rewrite Hc.
Qed.

Lemma saveCurrentSession_frame (w : World) :
  exists w',
    saveCurrentSession clock w = Ok tt w'
    /\ messages w' = messages w /\ inputText w' = inputText w
    /\ attachments w' = attachments w /\ isLoading w' = isLoading w
    /\ useThinking w' = useThinking w /\ activeChatId w' = activeChatId w
    /\ chatSession w' = chatSession w /\ sent w' = sent w.
Proof.
  unfold saveCurrentSession. run_handlers.
  destruct (messages w) as [|m0 rest] eqn:E.
  - exists w. repeat split. exact E.
  - destruct (activeChatId w) as [[|c i]|] eqn:A; cbn;
      eexists; (split; [reflexivity|]); cbn; repeat split; assumption.
Qed.

Lemma saveCurrentSession_active (w : World) (m0 : Message)
    (rest : list Message) (cid : jsstring) :
  messages w = m0 :: rest ->
  activeChatId w = Some cid ->
  cid <> [] ->
  saveCurrentSession clock w
  = Ok tt (upd_history
             (upsert cid (mkItem cid (derive_title (text m0)) (m0 :: rest)
                                 (clock (ticks w))))
             (upd_ticks S w)).
Proof.
  intros Hm Ha Hc. unfold saveCurrentSession. run_handlers.
  rewrite Hm, Ha. destruct cid as [|c i]; [congruence | reflexivity].
Qed.

(** "New chat" always succeeds and leaves an empty timeline, no pending
    attachment, no conversation id, the start screen, no suggestions and
    a fresh session configured by the thinking toggle.  It keeps the text
    typed in the input box, the in-flight flag and the log of requests as
    they were. *)
Theorem handleNewChat_resets (w : World) :
  exists w',
    handleNewChat clock w = Ok tt w'
    /\ messages w' = [] /\ attachments w' = []
    /\ activeChatId w' = None /\ hasStarted w' = false
    /\ suggestions w' = []
    /\ chatSession w' = Some (session_for (useThinking w))
    /\ inputText w' = inputText w
    /\ isLoading w' = isLoading w
    /\ sent w' = sent w.
Proof.
  unfold handleNewChat, bind, get.
  destruct (0 <? length (messages w))%nat.
  - destruct (saveCurrentSession_frame w)
      as (w1 & -> & _ & Hi & _ & Hl & _ & _ & _ & Hs).
    run_handlers. eexists. split; [reflexivity|]. cbn.
    repeat split; assumption.
  - run_handlers. eexists. split; [reflexivity|]. cbn. repeat split.
Qed.

(** "New chat" does not lose the conversation it leaves: a non-empty
    timeline with a conversation id is written to the history, under
    that id, before the timeline is cleared; an empty timeline leaves
    the history as it was. *)
Theorem handleNewChat_saves_conversation (w : World) :
  (forall m0 rest cid,
      messages w = m0 :: rest -> activeChatId w = Some cid -> cid <> [] ->
      exists w',
        handleNewChat clock w = Ok tt w'
        /\ history w'
           = upsert cid (mkItem cid (derive_title (text m0)) (m0 :: rest)
                                (clock (ticks w)))
                    (history w)
        /\ exists item, In item (history w') /\ item_id item = cid
                        /\ item_messages item = m0 :: rest)
  /\ (messages w = [] ->
      exists w', handleNewChat clock w = Ok tt w'
                 /\ history w' = history w).
Proof.
  split.
  - intros m0 rest cid Hm Ha Hc.
    unfold handleNewChat, bind, get. rewrite Hm. cbn [length Nat.ltb Nat.leb].
    rewrite (saveCurrentSession_active w m0 rest cid Hm Ha Hc).
    run_handlers. eexists. split; [reflexivity|]. cbn.
    split; [reflexivity|].
    eexists. split; [apply upsert_In|]. split; reflexivity.
  - intros Hm. unfold handleNewChat, bind, get. rewrite Hm.
    run_handlers. eexists. split; reflexivity.
Qed.

Lemma handleNewChat_reset_timeline (w : World) :
  exists w', handleNewChat clock w = Ok tt w' /\ messages w' = [].
Proof.
  unfold handleNewChat, bind, get.
  destruct (0 <? length (messages w))%nat.
  - destruct (saveCurrentSession_frame w) as (w1 & -> & _).
    run_handlers. eexists. split; reflexivity.
  - run_handlers. eexists. split; reflexivity.
Qed.

(** An increment that arrives after "new chat" finds an empty timeline
    and its updater throws: whatever the state before, after "new chat"
    every increment of a stream still in flight ends in an uncaught
    [TypeError], and so does the delivery of any stream that carries a
    non-empty text. *)
Theorem increment_after_new_chat_throws (w : World) (att : Attempt) :
  exists w',
    handleNewChat clock w = Ok tt w'
    /\ (forall chunk, onChunk att chunk w' = Uncaught TypeError)
    /\ (forall cs, delivered cs <> [] ->
                   deliver onChunk cs att w' = Uncaught TypeError).
Proof.
  destruct (handleNewChat_reset_timeline w) as (w' & H & Hm).
  exists w'. split; [exact H|]. split.
  - intros chunk. apply onChunk_empty_timeline. exact Hm.
  - induction cs as [|[[|c t]|] cs IH]; simpl; intros Hd;
      try congruence; try (apply IH; exact Hd).
    unfold bind. rewrite (onChunk_empty_timeline att (c :: t) w' Hm).
    reflexivity.
Qed.

End StreamingOutcomes.

(** ** History: loading, deleting, saving *)

Lemma upsert_find (cid : jsstring) (item : ChatHistoryItem)
    (prev : list ChatHistoryItem) :
  item_id item = cid ->
  find (fun it => streq (item_id it) cid) (upsert cid item prev) = Some item.
Proof.
  intros Hid. rewrite upsert_cases.
  destruct (has_id cid prev) eqn:E.
  - unfold has_id in E. induction prev as [|x prev IH]; simpl in *;
      [discriminate|].
    destruct (streq (item_id x) cid) eqn:S; simpl.
    + now rewrite Hid, streq_refl.
    + rewrite S. apply IH. exact E.
  - simpl. now rewrite Hid, streq_refl.
Qed.

Lemma upsert_others (cid : jsstring) (item : ChatHistoryItem)
    (prev : list ChatHistoryItem) :
  item_id item = cid ->
  filter (fun it => negb (streq (item_id it) cid)) (upsert cid item prev)
  = filter (fun it => negb (streq (item_id it) cid)) prev.
Proof.
  intros Hid. rewrite upsert_cases.
  destruct (has_id cid prev).
  - induction prev as [|x prev IH]; simpl; [reflexivity|].
    destruct (streq (item_id x) cid) eqn:S; simpl.
    + rewrite Hid, streq_refl. simpl. exact IH.
    + rewrite S. simpl. now rewrite IH.
  - simpl. rewrite Hid, streq_refl. reflexivity.
Qed.

Lemma upsert_length (cid : jsstring) (item : ChatHistoryItem)
    (prev : list ChatHistoryItem) :
  length (upsert cid item prev)
  = length prev + (if has_id cid prev then 0 else 1).
Proof.
  rewrite upsert_cases. destruct (has_id cid prev); simpl.
  - rewrite length_map. lia.
  - lia.
Qed.

Lemma filter_out_has_id (i : jsstring) (l : list ChatHistoryItem) :
  has_id i (filter (fun item => negb (streq (item_id item) i)) l) = false.
Proof.
  unfold has_id. induction l as [|x l IH]; simpl; [reflexivity|].
  destruct (streq (item_id x) i) eqn:S; simpl; [exact IH|].
  now rewrite S, IH.
Qed.

Section HistoryMore.

Variable clock : nat -> N.

(** A save never touches the other conversations: the items with other
    ids are the same, in the same order, and the collection grows by one
    item when the id is new and keeps its length otherwise. *)
Theorem save_preserves_other_conversations (cid : jsstring) (m0 : Message)
    (rest : list Message) (w : World) :
  cid <> [] ->
  exists w',
    save clock cid (m0 :: rest) w = Ok tt w'
    /\ filter (fun it => negb (streq (item_id it) cid)) (history w')
       = filter (fun it => negb (streq (item_id it) cid)) (history w)
    /\ length (history w')
       = length (history w) + (if has_id cid (history w) then 0 else 1).
Proof.
  intros Hc.
  destruct (save_nonempty clock cid m0 rest w Hc) as (w' & H & Hh & _).
  exists w'. split; [exact H|]. rewrite Hh. split.
  - apply upsert_others. reflexivity.
  - apply upsert_length.
Qed.

(** Save then load round trip: after a conversation is saved, the item
    found under its id in the history holds exactly the saved messages,
    and loading that item restores them as the timeline under the same
    conversation id, without writing to the history again. *)
Theorem save_then_load_round_trip (cid : jsstring) (m0 : Message)
    (rest : list Message) (w : World) :
  cid <> [] ->
  exists w1 item w2,
    save clock cid (m0 :: rest) w = Ok tt w1
    /\ find (fun it => streq (item_id it) cid) (history w1) = Some item
    /\ item_messages item = m0 :: rest
    /\ loadHistoryItem clock item w1 = Ok tt w2
    /\ messages w2 = m0 :: rest
    /\ activeChatId w2 = Some cid
    /\ history w2 = history w1.
Proof.
  intros Hc. destruct cid as [|c i]; [congruence|].
  unfold save, saveCurrentSession. run_handlers.
  eexists. eexists. eexists. split; [reflexivity|]. cbn [history upd_history].
  split; [apply upsert_find; reflexivity|]. split; [reflexivity|].
  unfold loadHistoryItem. run_handlers.
  rewrite !N.eqb_refl, streq_refl. cbn.
  split; [reflexivity|]. repeat split.
Qed.

(** Loading a history item always succeeds: the timeline becomes the
    stored messages, the conversation id the item's id, the pending
    attachments are dropped and the chat screen is shown, while the
    session handle, the typed text and the in-flight flag stay as they
    were.  The history is left alone when the timeline is empty or the
    item is the active conversation; otherwise the conversation that is
    left is saved first. *)
Theorem loadHistoryItem_switches (item : ChatHistoryItem) (w : World) :
  exists w',
    loadHistoryItem clock item w = Ok tt w'
    /\ messages w' = item_messages item
    /\ activeChatId w' = Some (item_id item)
    /\ attachments w' = [] /\ hasStarted w' = true
    /\ chatSession w' = chatSession w
    /\ inputText w' = inputText w /\ isLoading w' = isLoading w
    /\ (messages w = [] \/ activeChatId w = Some (item_id item) ->
        history w' = history w)
    /\ (forall m0 rest cid,
          messages w = m0 :: rest -> activeChatId w = Some cid ->
          cid <> [] -> cid <> item_id item ->
          history w'
          = upsert cid (mkItem cid (derive_title (text m0)) (m0 :: rest)
                               (clock (ticks w)))
                   (history w)).
Proof.
  unfold loadHistoryItem, bind, get.
  destruct ((0 <? length (messages w))%nat
            && negb (opt_streq (activeChatId w) (item_id item))) eqn:C.
  - destruct (saveCurrentSession_frame clock w)
      as (w1 & S1 & _ & Hi & _ & Hl & _ & _ & Hcs & _).
    rewrite S1. run_handlers. eexists. split; [reflexivity|]. cbn.
    repeat split; try assumption.
    + apply andb_true_iff in C. destruct C as [C1 C2].
      intros [Hm|Ha]; exfalso.
      * rewrite Hm in C1. discriminate.
      * rewrite Ha in C2. simpl in C2. rewrite streq_refl in C2. discriminate.
    + intros m0 rest cid Hm Ha Hc _.
      rewrite (saveCurrentSession_active clock w m0 rest cid Hm Ha Hc) in S1.
      injection S1 as <-. reflexivity.
  - run_handlers. eexists. split; [reflexivity|]. cbn. repeat split.
    intros m0 rest cid Hm Ha Hc Hne. exfalso.
    rewrite Hm, Ha in C. simpl in C.
    destruct (streq cid (item_id item)) eqn:S; [|discriminate].
    apply streq_true_iff in S. contradiction.
Qed.

(** Deleting a history item that is not the active conversation removes
    every item with that id and nothing else: the other items keep their
    order, and the rest of the state is as before. *)
Theorem delete_inactive_item (i : jsstring) (w : World) :
  activeChatId w <> Some i ->
  deleteHistoryItem clock i w
  = Ok tt (upd_history (filter (fun item => negb (streq (item_id item) i))) w)
  /\ has_id i (filter (fun item => negb (streq (item_id item) i)) (history w))
     = false.
Proof.
  intros Ha. split; [|apply filter_out_has_id].
  unfold deleteHistoryItem. run_handlers.
  destruct (activeChatId w) as [s|] eqn:E; simpl; [|reflexivity].
  destruct (streq s i) eqn:S; [|reflexivity].
  apply streq_true_iff in S. congruence.
Qed.

(** Deleting the active conversation starts a new chat.  When its
    timeline is empty the item is gone from the history.  When its
    timeline is not empty, the save that "new chat" performs runs after
    the removal and writes the conversation back: the history then
    begins with a new item of the same id holding the timeline. *)
Theorem delete_active_conversation (i : jsstring) (w : World) :
  activeChatId w = Some i ->
  i <> [] ->
  exists w',
    deleteHistoryItem clock i w = Ok tt w'
    /\ messages w' = [] /\ activeChatId w' = None
    /\ (messages w = [] ->
        history w' = filter (fun item => negb (streq (item_id item) i))
                            (history w)
        /\ has_id i (history w') = false)
    /\ (forall m0 rest, messages w = m0 :: rest ->
        history w'
        = mkItem i (derive_title (text m0)) (m0 :: rest) (clock (ticks w))
          :: filter (fun item => negb (streq (item_id item) i)) (history w)).
Proof.
  intros Ha Hi.
  unfold deleteHistoryItem, bind, get, setHistory, modify.
  rewrite Ha. cbn [opt_streq]. rewrite streq_refl.
  unfold handleNewChat, bind, get. cbn [messages upd_history].
  destruct (messages w) as [|m0 rest] eqn:Hm.
  - run_handlers. eexists. split; [reflexivity|]. cbn.
    repeat split; try apply filter_out_has_id. intros; discriminate.
  - cbn [length Nat.ltb Nat.leb].
    rewrite (saveCurrentSession_active clock
               (upd_history (filter (fun item => negb (streq (item_id item) i))) w)
               m0 rest i Hm Ha Hi).
    run_handlers. eexists. split; [reflexivity|]. cbn.
    repeat split; try discriminate.
    intros m1 rest1 [= <- <-].
    rewrite upsert_cases, filter_out_has_id. reflexivity.
Qed.

(** After an accepted submit has run to its end, the saving effect
    writes the conversation to the history: an item under the
    conversation id holds the whole timeline, which the effect leaves
    as it is. *)
Theorem autosave_after_submit (remote : RemoteStream) (w : World) :
  submit_rejected w = false ->
  exists w1 w2 cid item,
    handleSubmit clock remote w = Ok tt w1
    /\ autoSave_effect clock w1 = Ok tt w2
    /\ activeChatId w1 = Some cid
    /\ find (fun it => streq (item_id it) cid) (history w2) = Some item
    /\ item_messages item = messages w1
    /\ messages w2 = messages w1
    /\ length (history w2)
       = length (history w) + (if has_id cid (history w) then 0 else 1).
Proof.
  intros Hg.
  destruct (handleSubmit_fields clock remote w Hg)
    as (w1 & H & Hm & Hl & _ & _ & _ & Hh & Hid & _).
  assert (T : exists cid, activeChatId w1 = Some cid /\ cid <> []).
  { rewrite Hid. destruct (activeChatId w) as [[|c i]|]; simpl.
    - eexists. split; [reflexivity|]. intros E.
      pose proof (toString_truthy (clock (ticks w))) as P.
      rewrite E in P. discriminate.
    - eexists. split; [reflexivity | discriminate].
    - eexists. split; [reflexivity|]. intros E.
      pose proof (toString_truthy (clock (ticks w))) as P.
      rewrite E in P. discriminate. }
  destruct T as (cid & Hc & Hne).
  destruct (messages w1) as [|m0 rest] eqn:M1; [congruence|].
  exists w1. eexists. exists cid. eexists. split; [exact H|].
  unfold autoSave_effect, bind, get. rewrite Hl, M1, Hc.
  destruct cid as [|c i] eqn:Ec; [congruence|]. simpl.
  rewrite (saveCurrentSession_active clock w1 m0 rest (c :: i) M1 Hc Hne).
  split; [reflexivity|]. split; [reflexivity|]. cbn.
  split; [apply upsert_find; reflexivity|]. split; [reflexivity|].
  split; [exact M1|]. rewrite upsert_length, Hh. reflexivity.
Qed.

End HistoryMore.

(** ** Titles, attachments and suggestions *)

(** The title of a saved conversation is never empty, has at most 33
    code units, and for a first message with some text begins with the
    first 30 code units of it, or with all of it when it is shorter. *)
Theorem derived_title_bounds (t : jsstring) :
  derive_title t <> []
  /\ length (derive_title t) <= 33
  /\ (t <> [] -> firstn (length (firstn 30 t)) (derive_title t) = firstn 30 t).
Proof.
  unfold derive_title, or_else, slice0.
  destruct (Nat.ltb_spec 30 (length t)) as [Hl|Hl].
  - assert (L : length (firstn 30 t) = 30) by (rewrite length_firstn; lia).
    destruct (firstn 30 t ++ js "...") as [|c r] eqn:E.
    { apply (f_equal (@length _)) in E. rewrite length_app, L in E.
      simpl in E. lia. }
    simpl truthy. cbv iota. rewrite <- E. split; [congruence|]. split.
    + rewrite length_app, L. simpl. lia.
    + intros _. rewrite firstn_app, Nat.sub_diag, firstn_all. simpl.
      apply app_nil_r.
  - rewrite app_nil_r, firstn_all2 by exact Hl.
    destruct t as [|c r]; simpl truthy; cbv iota.
    + split; [discriminate|]. split; [simpl; lia | congruence].
    + split; [discriminate|]. split; [lia|]. intros _. apply firstn_all.
Qed.

Lemma filter_index_all {A} (keep : nat -> bool) (l : list A) :
  forall start, (forall i, start <= i -> keep i = true) ->
                filter_index keep start l = l.
Proof.
  induction l as [|x l IH]; intros start H; simpl; [reflexivity|].
  rewrite (H start) by lia. f_equal. apply IH. intros i Hi. apply H. lia.
Qed.

Lemma filter_index_drop {A} (l : list A) :
  forall start k,
    filter_index (fun i => negb (i =? start + k)) start l
    = firstn k l ++ skipn (S k) l.
Proof.
  induction l as [|x l IH]; intros start k; simpl.
  - now destruct k.
  - destruct k as [|k].
    + rewrite Nat.add_0_r, Nat.eqb_refl. simpl.
      apply filter_index_all. intros i Hi.
      destruct (Nat.eqb_spec i start); [lia | reflexivity].
    + destruct (Nat.eqb_spec start (start + S k)) as [E|_]; [lia|].
      simpl. f_equal.
      replace (start + S k) with (S start + k) by lia. apply IH.
Qed.

(** Removing the pending attachment at a position takes out exactly that
    one: those before and after keep their order; a position past the
    end removes nothing.  Nothing else in the state changes. *)
Theorem removeAttachment_removes_one (index : nat) (w : World) :
  exists w',
    removeAttachment index w = Ok tt w'
    /\ attachments w'
       = firstn index (attachments w) ++ skipn (S index) (attachments w)
    /\ (index < length (attachments w) ->
        S (length (attachments w')) = length (attachments w))
    /\ (length (attachments w) <= index -> attachments w' = attachments w)
    /\ messages w' = messages w /\ inputText w' = inputText w
    /\ isLoading w' = isLoading w.
Proof.
  unfold removeAttachment, setAttachments, modify.
  eexists. split; [reflexivity|].
  cbn [attachments upd_attachments messages inputText isLoading].
  assert (E := filter_index_drop (attachments w) 0 index).
  change (0 + index) with index in E. rewrite E. split; [reflexivity|]. split; [|split].
  - intros H. rewrite length_app, length_firstn, length_skipn. lia.
  - intros H. rewrite firstn_all2 by exact H.
    rewrite skipn_all2 by lia. apply app_nil_r.
  - repeat split.
Qed.

Lemma startsWith_app (p s : jsstring) : startsWith p (p ++ s) = true.
Proof.
  induction p as [|c p IH]; simpl; [reflexivity|].
  now rewrite N.eqb_refl, IH.
Qed.

(** Encoding then display round trip for an image: the codec strips the
    prefix of the data URL the reader produced, and the URL the display
    rebuilds from the attachment's media type and data is that data URL
    again.  For a media type that does not start with "image/" no URL is
    built. *)
Theorem image_src_round_trip (subtype payload name : jsstring) :
  ~ In comma subtype ->
  forallb Codec.isBase64 payload = true ->
  let mime := js "image/" ++ subtype in
  Codec.fileToBase64
    (Codec.OnLoad (Codec.ResultString (Codec.dataURL mime payload)))
  = Codec.Resolved (Some payload)
  /\ image_src (mkAttachment mime payload name)
     = Some (Codec.dataURL mime payload)
  /\ forall other, startsWith (js "image/") other = false ->
                   image_src (mkAttachment other payload name) = None.
Proof.
  intros Hs Hp mime. split; [|split].
  - unfold Codec.fileToBase64, Codec.dataURL.
    assert (Hc : ~ In comma payload).
    { intros Hin. rewrite forallb_forall in Hp.
      apply (isBase64_not_comma _ (Hp _ Hin)). reflexivity. }
    replace (js "data:" ++ mime ++ js ";base64," ++ payload)
      with ((js "data:" ++ mime ++ js ";base64") ++ comma :: payload).
    2:{ rewrite <- !app_assoc. reflexivity. }
    rewrite split_app_sep, (split_no_sep _ _ Hc); [reflexivity|].
    unfold mime. rewrite !in_app_iff. intros [H|[[H|H]|H]]; [| |tauto|];
      vm_compute in H; intuition discriminate.
  - unfold image_src, mime. cbn [mimeType data].
    now rewrite startsWith_app.
  - intros other Ho. unfold image_src. cbn [mimeType]. now rewrite Ho.
Qed.

(** What [fileToBase64] resolves with for any string result: the text
    between the first comma and the second, or the end when there is no
    second one, and [undefined] when the result has no comma at all; the
    promise rejects only when the result is not a string or the reader
    reports an error. *)
Theorem fileToBase64_takes_second_segment (a b c : jsstring)
    (e : Error) :
  ~ In comma a ->
  ~ In comma b ->
  Codec.fileToBase64 (Codec.OnLoad (Codec.ResultString a))
  = Codec.Resolved None
  /\ Codec.fileToBase64 (Codec.OnLoad (Codec.ResultString (a ++ comma :: b)))
     = Codec.Resolved (Some b)
  /\ Codec.fileToBase64
       (Codec.OnLoad (Codec.ResultString (a ++ comma :: b ++ comma :: c)))
     = Codec.Resolved (Some b)
  /\ Codec.fileToBase64 (Codec.OnLoad Codec.ResultNull)
     = Codec.Rejected (ErrorMsg (js "Failed to convert file to string"))
  /\ Codec.fileToBase64 (Codec.OnError e) = Codec.Rejected e.
Proof.
  intros Ha Hb. unfold Codec.fileToBase64. repeat split.
  - now rewrite (split_no_sep _ _ Ha).
  - now rewrite (split_app_sep _ _ _ Ha), (split_no_sep _ _ Hb).
  - now rewrite (split_app_sep _ _ _ Ha), (split_app_sep _ _ _ Hb).
Qed.

(** [generateSuggestions] returns the fallback exactly when the remote
    call or the parsing fails; otherwise it returns what [JSON.parse]
    made of the response text, as it is: neither the number of items nor
    their shape is checked. *)
Theorem generateSuggestions_exact (J : Type)
    (JSON_parse : jsstring -> Suggestions.Completion J)
    (remote : Suggestions.GenerateContent) :
  (Suggestions.generateSuggestions JSON_parse remote
   = Suggestions.Returns (Suggestions.Literal Suggestions.FALLBACK)
   <-> suggestion_failure JSON_parse remote)
  /\ (forall v,
        Suggestions.generateSuggestions JSON_parse remote
        = Suggestions.Returns (Suggestions.Parsed v)
        <-> exists t, remote = Suggestions.GenResponds (Some t)
                      /\ t <> [] /\ JSON_parse t = Suggestions.Returns v).
Proof.
  unfold Suggestions.generateSuggestions, Suggestions.generateSuggestions_try,
    Suggestions.try_catch, suggestion_failure.
  destruct remote as [e|[[|c t]|]]; simpl.
  - split; [tauto|]. intros v. split; [discriminate|].
    intros (t & H & _). discriminate.
  - split; [tauto|]. intros v. split; [discriminate|].
    intros (t & [= <-] & H & _). congruence.
  - destruct (JSON_parse (c :: t)) as [v0|e0] eqn:P; split.
    + split; [discriminate|]. intros [H|[e He]]; discriminate.
    + intros v. split.
      * intros [= <-]. exists (c :: t). repeat split; [discriminate | exact P].
      * intros (t' & [= <-] & _ & H). congruence.
    + split; [intros _; right; eauto | reflexivity].
    + intros v. split; [discriminate|].
      intros (t' & [= <-] & _ & H). congruence.
  - split; [tauto|]. intros v. split; [discriminate|].
    intros (t & H & _). discriminate.
Qed.

(** ** The further properties at sample inputs *)

Lemma send_button_matches_guard_witness :
  handleSubmit Sample.clk SampleRuns.hello Sample.w_loading
  = Ok tt Sample.w_loading
  /\ exists r w1,
       handleSubmit_enter Sample.clk Sample.w_hi = Ok (Some r) w1.
Proof.
  split.
  - apply (proj1 (proj2 (send_button_matches_guard Sample.clk
                           SampleRuns.hello Sample.w_loading))).
    reflexivity.
  - apply (proj2 (proj2 (send_button_matches_guard Sample.clk
                           SampleRuns.hello Sample.w_hi))).
    reflexivity.
Defined.

Lemma blank_input_is_not_sent_witness :
  handleSubmit Sample.clk SampleRuns.hello Sample.w_blank
  = Ok tt Sample.w_blank
  /\ isSendActive Sample.w_blank = false.
Proof.
  apply (blank_input_is_not_sent Sample.clk SampleRuns.hello Sample.w_blank);
    reflexivity.
Defined.

Lemma accepted_submit_sends_one_request_witness :
  exists w',
    handleSubmit Sample.clk SampleRuns.hello Sample.w_hi = Ok tt w'
    /\ sent w' = [Raw (js "hi")].
Proof.
  destruct (accepted_submit_sends_one_request Sample.clk SampleRuns.hello
              Sample.w_hi eq_refl) as (w' & H & Hs & _).
  exists w'. split; [exact H | exact Hs].
Defined.

Lemma attachments_only_submit_witness :
  exists w',
    handleSubmit Sample.clk SampleRuns.hello MoreSamples.w_image_pending
    = Ok tt w'
    /\ sent w'
       = [Parts [InlineData (js "image/png") (js "iVBORw0KGgo=")]].
Proof.
  destruct (attachments_only_submit Sample.clk SampleRuns.hello
              MoreSamples.w_image_pending Sample.image []
              eq_refl eq_refl eq_refl) as (w' & H & _ & _ & Hs & _).
  exists w'. split; [exact H | exact Hs].
Defined.

Lemma submit_allocates_conversation_id_witness :
  exists w',
    handleSubmit Sample.clk SampleRuns.hello Sample.w_hi = Ok tt w'
    /\ activeChatId w' = Some (js "1000").
Proof.
  destruct (submit_allocates_conversation_id Sample.clk SampleRuns.hello
              Sample.w_hi eq_refl) as (w' & H & _ & _ & Hn).
  exists w'. split; [exact H | exact (Hn eq_refl)].
Defined.

Lemma ready_after_submit_witness :
  exists w1 w2 r w3,
    handleSubmit Sample.clk SampleRuns.broken Sample.w_hi = Ok tt w1
    /\ handleInputChange (js "again") w1 = Ok tt w2
    /\ handleSubmit_enter Sample.clk w2 = Ok (Some r) w3.
Proof.
  destruct (ready_after_submit Sample.clk SampleRuns.broken Sample.w_hi
              eq_refl) as (w1 & H & Hnext).
  assert (Ht : trim (js "again") <> []) by (vm_compute; discriminate).
  destruct (Hnext (js "again") Ht) as (w2 & r & w3 & H2 & _ & H3 & _).
  exists w1, w2, r, w3. repeat split; assumption.
Defined.

Lemma streaming_replaces_in_place_witness :
  exists att' w' m',
    deliver onChunk [Some (js " How"); None; Some (js " are you?")]
            MoreSamples.att_talk MoreSamples.w_talk = Ok att' w'
    /\ messages w' = [MoreSamples.question; m']
    /\ text m' = js "Hello! How are you?".
Proof.
  destruct (streaming_replaces_in_place
              [Some (js " How"); None; Some (js " are you?")]
              MoreSamples.att_talk MoreSamples.w_talk
              [MoreSamples.question] MoreSamples.answer eq_refl eq_refl)
    as (att' & w' & m' & H & Hm & _ & _ & _ & Hf & Ht & _).
  exists att', w', m'. split; [exact H|]. split; [exact Hm|].
  rewrite Ht by discriminate. rewrite Hf. reflexivity.
Defined.

Lemma submit_is_append_only_witness :
  exists w' added,
    handleSubmit Sample.clk SampleRuns.broken MoreSamples.w_talk = Ok tt w'
    /\ messages w'
       = [MoreSamples.question; MoreSamples.answer]
         ++ userMessage_of Sample.clk MoreSamples.w_talk :: added.
Proof.
  destruct (submit_is_append_only Sample.clk SampleRuns.broken
              MoreSamples.w_talk clk_monotone eq_refl)
    as (w' & added & H & Hm & _).
  exists w', added. split; [exact H | exact Hm].
Defined.

Lemma error_notice_can_share_placeholder_id_witness :
  exists w' ai err,
    handleSubmit Sample.slow_clk SampleRuns.broken Sample.w_hi = Ok tt w'
    /\ messages w'
       = [userMessage_of Sample.slow_clk Sample.w_hi; ai; err]
    /\ id ai = id err.
Proof.
  assert (Hd : delivered (chunks SampleRuns.broken) <> [])
    by (vm_compute; discriminate).
  destruct (error_notice_can_share_placeholder_id Sample.slow_clk
              SampleRuns.broken Sample.w_hi slow_clk_monotone eq_refl
              eq_refl Hd eq_refl) as (w' & ai & err & H & Hm & _ & Hi).
  exists w', ai, err. repeat split; assumption.
Defined.

Lemma handleNewChat_saves_conversation_witness :
  exists w',
    handleNewChat Sample.clk MoreSamples.w_talk = Ok tt w'
    /\ exists item, In item (history w') /\ item_id item = js "1000"
                    /\ item_messages item
                       = [MoreSamples.question; MoreSamples.answer].
Proof.
  assert (Hc : js "1000" <> []) by discriminate.
  destruct (proj1 (handleNewChat_saves_conversation Sample.clk
                     MoreSamples.w_talk)
              MoreSamples.question [MoreSamples.answer] (js "1000")
              eq_refl eq_refl Hc) as (w' & H & _ & Hitem).
  exists w'. split; [exact H | exact Hitem].
Defined.

Lemma increment_after_new_chat_throws_witness :
  exists w',
    handleNewChat Sample.clk MoreSamples.w_talk = Ok tt w'
    /\ deliver onChunk [Some (js "late")] MoreSamples.att_talk w'
       = Uncaught TypeError.
Proof.
  destruct (increment_after_new_chat_throws Sample.clk MoreSamples.w_talk
              MoreSamples.att_talk) as (w' & H & _ & Hd).
  exists w'. split; [exact H|]. apply Hd. vm_compute. discriminate.
Defined.

Lemma save_preserves_other_conversations_witness :
  exists w',
    save Sample.clk (js "1000") [MoreSamples.question; MoreSamples.answer]
         Sample.w_with_history = Ok tt w'
    /\ length (history w') = 2.
Proof.
  assert (Hc : js "1000" <> []) by discriminate.
  destruct (save_preserves_other_conversations Sample.clk (js "1000")
              MoreSamples.question [MoreSamples.answer]
              Sample.w_with_history Hc) as (w' & H & _ & Hl).
  exists w'. split; [exact H | exact Hl].
Defined.

Lemma save_then_load_round_trip_witness :
  exists w1 item w2,
    save Sample.clk (js "1000") [MoreSamples.question; MoreSamples.answer]
         Sample.w_with_history = Ok tt w1
    /\ loadHistoryItem Sample.clk item w1 = Ok tt w2
    /\ messages w2 = [MoreSamples.question; MoreSamples.answer].
Proof.
  assert (Hc : js "1000" <> []) by discriminate.
  destruct (save_then_load_round_trip Sample.clk (js "1000")
              MoreSamples.question [MoreSamples.answer]
              Sample.w_with_history Hc)
    as (w1 & item & w2 & H1 & _ & _ & H2 & Hm & _).
  exists w1, item, w2. repeat split; assumption.
Defined.

Lemma loadHistoryItem_switches_witness :
  exists w',
    loadHistoryItem Sample.clk Sample.old_item MoreSamples.w_talk = Ok tt w'
    /\ messages w' = [Sample.old_message]
    /\ length (history w') = 2.
Proof.
  assert (Hc : js "1000" <> []) by discriminate.
  assert (Hn : js "1000" <> item_id Sample.old_item) by discriminate.
  destruct (loadHistoryItem_switches Sample.clk Sample.old_item
              MoreSamples.w_talk)
    as (w' & H & Hm & _ & _ & _ & _ & _ & _ & _ & Hsave).
  exists w'. split; [exact H|]. split; [exact Hm|].
  rewrite (Hsave MoreSamples.question [MoreSamples.answer] (js "1000")
             eq_refl eq_refl Hc Hn).
  reflexivity.
Defined.

Lemma delete_inactive_item_witness :
  exists w',
    deleteHistoryItem Sample.clk (js "16") MoreSamples.w_talk = Ok tt w'
    /\ history w' = [].
Proof.
  assert (Ha : activeChatId MoreSamples.w_talk <> Some (js "16"))
    by discriminate.
  destruct (delete_inactive_item Sample.clk (js "16") MoreSamples.w_talk Ha)
    as (H & _).
  eexists. split; [exact H | reflexivity].
Defined.

Lemma delete_active_conversation_witness :
  exists w' item,
    deleteHistoryItem Sample.clk (js "1000") MoreSamples.w_talk = Ok tt w'
    /\ history w' = [item; Sample.old_item]
    /\ item_id item = js "1000".
Proof.
  assert (Hc : js "1000" <> []) by discriminate.
  destruct (delete_active_conversation Sample.clk (js "1000")
              MoreSamples.w_talk eq_refl Hc) as (w' & H & _ & _ & _ & Hh).
  exists w'. eexists. split; [exact H|].
  rewrite (Hh MoreSamples.question [MoreSamples.answer] eq_refl).
  split; reflexivity.
Defined.

Lemma autosave_after_submit_witness :
  exists w1 w2 cid item,
    handleSubmit Sample.clk SampleRuns.hello Sample.w_hi = Ok tt w1
    /\ autoSave_effect Sample.clk w1 = Ok tt w2
    /\ find (fun it => streq (item_id it) cid) (history w2) = Some item
    /\ item_messages item = messages w1.
Proof.
  destruct (autosave_after_submit Sample.clk SampleRuns.hello Sample.w_hi
              eq_refl)
    as (w1 & w2 & cid & item & H1 & H2 & _ & H3 & H4 & _).
  exists w1, w2, cid, item. repeat split; assumption.
Defined.

Lemma derived_title_bounds_witness :
  firstn (length (firstn 30 (js "what is a monad")))
         (derive_title (js "what is a monad"))
  = firstn 30 (js "what is a monad").
Proof.
  apply (proj2 (proj2 (derived_title_bounds (js "what is a monad")))).
  discriminate.
Defined.

Lemma removeAttachment_removes_one_witness :
  exists w',
    removeAttachment 0 MoreSamples.w_talk = Ok tt w'
    /\ S (length (attachments w')) = length (attachments MoreSamples.w_talk).
Proof.
  destruct (removeAttachment_removes_one 0 MoreSamples.w_talk)
    as (w' & H & _ & Hl & _).
  exists w'. split; [exact H|]. apply Hl. simpl. lia.
Defined.

Lemma image_src_round_trip_witness :
  image_src (mkAttachment (js "image/" ++ js "png") (js "iVBORw0KGgo=")
                          (js "a.png"))
  = Some (Codec.dataURL (js "image/" ++ js "png") (js "iVBORw0KGgo=")).
Proof.
  assert (Hs : ~ In comma (js "png")) by (vm_compute; intuition discriminate).
  exact (proj1 (proj2 (image_src_round_trip (js "png") (js "iVBORw0KGgo=")
                         (js "a.png") Hs eq_refl))).
Defined.

Lemma fileToBase64_takes_second_segment_witness :
  Codec.fileToBase64
    (Codec.OnLoad (Codec.ResultString
       (js "data:x" ++ comma :: js "AAAA" ++ comma :: js "BBBB")))
  = Codec.Resolved (Some (js "AAAA")).
Proof.
  assert (Ha : ~ In comma (js "data:x")) by (vm_compute; intuition discriminate).
  assert (Hb : ~ In comma (js "AAAA")) by (vm_compute; intuition discriminate).
  exact (proj1 (proj2 (proj2 (fileToBase64_takes_second_segment
                                (js "data:x") (js "AAAA") (js "BBBB")
                                TypeError Ha Hb)))).
Defined.

Lemma generateSuggestions_exact_witness :
  Suggestions.generateSuggestions MoreSamples.any_parse
    (Suggestions.GenResponds (Some (js "[]")))
  = Suggestions.Returns (Suggestions.Parsed (js "[]")).
Proof.
  apply (proj2 (generateSuggestions_exact jsstring MoreSamples.any_parse
                  (Suggestions.GenResponds (Some (js "[]"))))).
  exists (js "[]"). repeat split. discriminate.
Defined.
